(** * SnapSort backend: a shallow embedding of [backend_server/app.py]

    The development follows the layout of the Python module:

    - [Base64]: the byte-level encoding performed by [base64.b64encode]
      (RFC 4648, section 4) together with the matching decoder;
    - [Py]: the handful of Python notions the module relies on (truthiness,
      [or], exceptions, the values produced by [json.loads], a few [str]
      methods), and [PyFacts], what is needed about them;
    - [App]: the module itself: [_encode_image], [_call_model],
      [_analyze_file] and the [/analyze] endpoint, written in a small
      exception-and-trace monad, with the collaborators that are not part of
      the repository ([mimetypes.guess_type], the OpenAI client,
      [json.loads], the pydantic major version) taken as section variables.
      [asyncio.gather] is a table of tasks, each parked at its [await] or
      finished, driven by the order in which the worker threads finish;
    - [Demo]: one concrete choice of collaborators and a few uploads, on
      which the theorems are then run.
*)

From Stdlib Require Import NArith ZArith Lia List String Ascii Bool.
From Stdlib Require Import DecimalString.
From Stdlib.Strings Require Import Byte.
Import ListNotations.

Local Open Scope string_scope.

(* ===================================================================== *)
(** ** Base64 (RFC 4648, section 4), as computed by [base64.b64encode]   *)
(* ===================================================================== *)

Module Base64.

Local Open Scope list_scope.
Local Open Scope N_scope.

(** The standard alphabet, index [0] to [63]. *)
Definition alphabet : list byte :=
  list_byte_of_string
    "ABCDEFGHIJKLMNOPQRSTUVWXYZabcdefghijklmnopqrstuvwxyz0123456789+/".

(** The padding character [=]. *)
Definition pad : byte := x3d.

Definition char_of_sextet (n : N) : byte := nth (N.to_nat n) alphabet pad.

Fixpoint index_of (c : byte) (l : list byte) : option N :=
  match l with
  | [] => None
  | x :: l' =>
      if Byte.eqb c x then Some 0
      else match index_of c l' with
           | Some i => Some (N.succ i)
           | None => None
           end
  end.

Definition sextet_of_char (c : byte) : option N := index_of c alphabet.

(** The 24-bit group formed by three input bytes. *)
Definition group24 (a b c : byte) : N :=
  Byte.to_N a * 65536 + Byte.to_N b * 256 + Byte.to_N c.

(** The four 6-bit digits of a 24-bit group, most significant first. *)
Definition sextets (v : N) : list N :=
  [v / 262144; (v / 4096) mod 64; (v / 64) mod 64; v mod 64].

Definition encode3 (a b c : byte) : list byte :=
  map char_of_sextet (sextets (group24 a b c)).

(** [binascii.b2a_base64(data, newline=False)]: full groups of three bytes
    give four characters; a final group of one or two bytes is completed
    with zero bits and padded with [=]. No line break is ever inserted. *)
Fixpoint b64encode (data : list byte) : list byte :=
  match data with
  | [] => []
  | [a] => firstn 2 (encode3 a x00 x00) ++ [pad; pad]
  | [a; b] => firstn 3 (encode3 a b x00) ++ [pad]
  | a :: b :: c :: rest => encode3 a b c ++ b64encode rest
  end.

(** Decoding. [bytes_of_group k v] gives the [k] leading bytes of the 24-bit
    group [v]. *)
Definition bytes_of_group (k : nat) (v : N) : option (list byte) :=
  match Byte.of_N (v / 65536), Byte.of_N ((v / 256) mod 256),
        Byte.of_N (v mod 256) with
  | Some a, Some b, Some c => Some (firstn k [a; b; c])
  | _, _, _ => None
  end.

Definition group_of_sextets (s1 s2 s3 s4 : N) : N :=
  s1 * 262144 + s2 * 4096 + s3 * 64 + s4.

Definition decode4 (c1 c2 c3 c4 : byte) : option (list byte) :=
  match sextet_of_char c1, sextet_of_char c2,
        sextet_of_char c3, sextet_of_char c4 with
  | Some s1, Some s2, Some s3, Some s4 =>
      bytes_of_group 3 (group_of_sextets s1 s2 s3 s4)
  | _, _, _, _ => None
  end.

(** The last quantum may carry one or two padding characters. *)
Definition decode_last (c1 c2 c3 c4 : byte) : option (list byte) :=
  if Byte.eqb c4 pad then
    if Byte.eqb c3 pad then
      match sextet_of_char c1, sextet_of_char c2 with
      | Some s1, Some s2 => bytes_of_group 1 (group_of_sextets s1 s2 0 0)
      | _, _ => None
      end
    else
      match sextet_of_char c1, sextet_of_char c2, sextet_of_char c3 with
      | Some s1, Some s2, Some s3 =>
          bytes_of_group 2 (group_of_sextets s1 s2 s3 0)
      | _, _, _ => None
      end
  else decode4 c1 c2 c3 c4.

(** Strict decoding of padded base64 text: the input is a sequence of
    four-character quanta over the alphabet, padding is only allowed at the
    end of the last one. *)
Fixpoint b64decode (s : list byte) : option (list byte) :=
  match s with
  | [] => Some []
  | c1 :: c2 :: c3 :: c4 :: rest =>
      match rest with
      | [] => decode_last c1 c2 c3 c4
      | _ :: _ =>
          match decode4 c1 c2 c3 c4, b64decode rest with
          | Some x, Some y => Some (x ++ y)
          | _, _ => None
          end
      end
  | _ => None
  end.

(** A character that may occur in encoded text. *)
Definition is_b64_char (c : byte) : bool :=
  match sextet_of_char c with
  | Some _ => true
  | None => Byte.eqb c pad
  end.

(** *** The test vectors of RFC 4648, section 10 *)

Example rfc4648_f :
  b64encode (list_byte_of_string "f") = list_byte_of_string "Zg==".
Proof. reflexivity. Qed.

Example rfc4648_fo :
  b64encode (list_byte_of_string "fo") = list_byte_of_string "Zm8=".
Proof. reflexivity. Qed.

Example rfc4648_foo :
  b64encode (list_byte_of_string "foo") = list_byte_of_string "Zm9v".
Proof. reflexivity. Qed.

Example rfc4648_foob :
  b64encode (list_byte_of_string "foob") = list_byte_of_string "Zm9vYg==".
Proof. reflexivity. Qed.

Example rfc4648_foobar :
  b64encode (list_byte_of_string "foobar") = list_byte_of_string "Zm9vYmFy".
Proof. reflexivity. Qed.

Example rfc4648_decode_fooba :
  b64decode (list_byte_of_string "Zm9vYmE=") = Some (list_byte_of_string "fooba").
Proof. reflexivity. Qed.

(** *** Digits and characters *)

Lemma sextet_char_table :
  forallb (fun k => match sextet_of_char (char_of_sextet (N.of_nat k)) with
                    | Some j => N.eqb j (N.of_nat k)
                    | None => false
                    end) (seq 0 64) = true.
Proof. vm_compute. reflexivity. Qed.

Lemma sextet_of_char_of_sextet (n : N) :
  n < 64 -> sextet_of_char (char_of_sextet n) = Some n.
Proof.
  intros Hn.
  pose proof (proj1 (forallb_forall _ _) sextet_char_table (N.to_nat n)) as H.
  cbv beta in H. rewrite N2Nat.id in H.
  assert (Hin : In (N.to_nat n) (seq 0 64)) by (apply in_seq; lia).
  specialize (H Hin).
  destruct (sextet_of_char (char_of_sextet n)) as [j|]; [|discriminate].
  apply N.eqb_eq in H. now subst.
Qed.

Lemma char_of_sextet_is_b64 (n : N) : is_b64_char (char_of_sextet n) = true.
Proof.
  unfold is_b64_char.
  destruct (N.lt_ge_cases n 64) as [Hlt|Hge].
  - now rewrite sextet_of_char_of_sextet.
  - unfold char_of_sextet. rewrite nth_overflow.
    + reflexivity.
    + change (List.length alphabet) with 64%nat. lia.
Qed.

Lemma char_of_sextet_not_pad (n : N) :
  n < 64 -> Byte.eqb (char_of_sextet n) pad = false.
Proof.
  intros Hn. destruct (Byte.eqb (char_of_sextet n) pad) eqn:E; [|reflexivity].
  apply Byte.byte_dec_bl in E.
  pose proof (sextet_of_char_of_sextet n Hn) as H. rewrite E in H.
  vm_compute in H. discriminate.
Qed.

(** *** Groups *)

Lemma group24_bound (a b c : byte) : group24 a b c < 16777216.
Proof.
  unfold group24.
  pose proof (Byte.to_N_bounded a). pose proof (Byte.to_N_bounded b).
  pose proof (Byte.to_N_bounded c). lia.
Qed.

Ltac euclid := zify; Z.to_euclidean_division_equations; lia.

Lemma sextets_bound (v : N) :
  v < 16777216 -> Forall (fun s => s < 64) (sextets v).
Proof.
  intros Hv. unfold sextets. repeat constructor; euclid.
Qed.

Lemma group_of_sextets_inv (v : N) :
  v < 16777216 ->
  group_of_sextets (v / 262144) ((v / 4096) mod 64) ((v / 64) mod 64)
                   (v mod 64) = v.
Proof. intros Hv. unfold group_of_sextets. euclid. Qed.

Lemma bytes_of_group24 (k : nat) (a b c : byte) :
  bytes_of_group k (group24 a b c) = Some (firstn k [a; b; c]).
Proof.
  unfold bytes_of_group, group24.
  pose proof (Byte.to_N_bounded a) as Ha. pose proof (Byte.to_N_bounded b) as Hb.
  pose proof (Byte.to_N_bounded c) as Hc.
  set (x := Byte.to_N a) in *. set (y := Byte.to_N b) in *.
  set (z := Byte.to_N c) in *.
  replace ((x * 65536 + y * 256 + z) / 65536) with x by euclid.
  replace (((x * 65536 + y * 256 + z) / 256) mod 256) with y by euclid.
  replace ((x * 65536 + y * 256 + z) mod 256) with z by euclid.
  subst x y z. now rewrite !Byte.of_to_N.
Qed.

Lemma of_N_small (n : N) : n < 256 -> exists b, Byte.of_N n = Some b.
Proof.
  intros Hn. destruct (Byte.of_N n) as [b|] eqn:E; [now exists b|].
  apply Byte.of_N_None_iff in E. lia.
Qed.

Lemma bytes_of_group_prefix1 (v : N) (a : byte) :
  v / 65536 = Byte.to_N a -> bytes_of_group 1 v = Some [a].
Proof.
  intros H1. unfold bytes_of_group. rewrite H1, Byte.of_to_N.
  destruct (of_N_small ((v / 256) mod 256)) as [b ->]; [euclid|].
  destruct (of_N_small (v mod 256)) as [c ->]; [euclid|].
  reflexivity.
Qed.

Lemma bytes_of_group_prefix2 (v : N) (a b : byte) :
  v / 65536 = Byte.to_N a -> (v / 256) mod 256 = Byte.to_N b ->
  bytes_of_group 2 v = Some [a; b].
Proof.
  intros H1 H2. unfold bytes_of_group. rewrite H1, H2, !Byte.of_to_N.
  destruct (of_N_small (v mod 256)) as [c ->]; [euclid|].
  reflexivity.
Qed.

(** Dropping the low-order digits of a partial group does not disturb the
    bytes that were completely encoded. *)
Lemma bytes_of_group_1 (a : byte) :
  let v := group24 a x00 x00 in
  bytes_of_group 1 (group_of_sextets (v / 262144) ((v / 4096) mod 64) 0 0)
  = Some [a].
Proof.
  cbv zeta. apply bytes_of_group_prefix1.
  unfold group_of_sextets, group24.
  pose proof (Byte.to_N_bounded a) as Ha. change (Byte.to_N x00) with 0.
  euclid.
Qed.

Lemma bytes_of_group_2 (a b : byte) :
  let v := group24 a b x00 in
  bytes_of_group 2
    (group_of_sextets (v / 262144) ((v / 4096) mod 64) ((v / 64) mod 64) 0)
  = Some [a; b].
Proof.
  cbv zeta.
  pose proof (Byte.to_N_bounded a) as Ha. pose proof (Byte.to_N_bounded b) as Hb.
  apply bytes_of_group_prefix2; unfold group_of_sextets, group24;
    change (Byte.to_N x00) with 0; euclid.
Qed.

Lemma encode3_chars (a b c : byte) :
  exists s1 s2 s3 s4,
    encode3 a b c = [char_of_sextet s1; char_of_sextet s2;
                     char_of_sextet s3; char_of_sextet s4] /\
    s1 < 64 /\ s2 < 64 /\ s3 < 64 /\ s4 < 64 /\
    sextets (group24 a b c) = [s1; s2; s3; s4].
Proof.
  pose proof (sextets_bound _ (group24_bound a b c)) as HB.
  unfold encode3. unfold sextets in *.
  inversion_clear HB as [|? ? H1 HB1]. inversion_clear HB1 as [|? ? H2 HB2].
  inversion_clear HB2 as [|? ? H3 HB3]. inversion_clear HB3 as [|? ? H4 _].
  do 4 eexists. repeat split; eauto.
Qed.

Lemma decode4_encode3 (a b c : byte) :
  forall c1 c2 c3 c4, encode3 a b c = [c1; c2; c3; c4] ->
  decode4 c1 c2 c3 c4 = Some [a; b; c].
Proof.
  intros c1 c2 c3 c4 E.
  destruct (encode3_chars a b c) as (s1 & s2 & s3 & s4 & E' & H1 & H2 & H3 & H4 & S).
  rewrite E' in E. injection E as <- <- <- <-.
  unfold decode4. rewrite !sextet_of_char_of_sextet by assumption.
  unfold sextets in S. injection S as <- <- <- <-.
  rewrite group_of_sextets_inv by apply group24_bound.
  apply (bytes_of_group24 3).
Qed.

Lemma decode_last_encode3 (a b c : byte) :
  forall c1 c2 c3 c4, encode3 a b c = [c1; c2; c3; c4] ->
  decode_last c1 c2 c3 c4 = Some [a; b; c].
Proof.
  intros c1 c2 c3 c4 E. unfold decode_last.
  destruct (encode3_chars a b c) as (s1 & s2 & s3 & s4 & E' & H1 & H2 & H3 & H4 & S).
  rewrite E' in E. injection E as E1 E2 E3 E4.
  rewrite <- E4, char_of_sextet_not_pad by assumption.
  rewrite E4. apply decode4_encode3. rewrite E'. congruence.
Qed.

Lemma decode_last_1 (a : byte) :
  forall c1 c2 c3 c4, encode3 a x00 x00 = [c1; c2; c3; c4] ->
  decode_last c1 c2 pad pad = Some [a].
Proof.
  intros c1 c2 c3 c4 E.
  destruct (encode3_chars a x00 x00)
    as (s1 & s2 & s3 & s4 & E' & H1 & H2 & H3 & H4 & S).
  rewrite E' in E. injection E as <- <- <- <-.
  unfold decode_last. change (Byte.eqb pad pad) with true. cbv iota.
  rewrite !sextet_of_char_of_sextet by assumption.
  unfold sextets in S. injection S as <- <- _ _.
  apply bytes_of_group_1.
Qed.

Lemma decode_last_2 (a b : byte) :
  forall c1 c2 c3 c4, encode3 a b x00 = [c1; c2; c3; c4] ->
  decode_last c1 c2 c3 pad = Some [a; b].
Proof.
  intros c1 c2 c3 c4 E.
  destruct (encode3_chars a b x00)
    as (s1 & s2 & s3 & s4 & E' & H1 & H2 & H3 & H4 & S).
  rewrite E' in E. injection E as <- <- <- <-.
  unfold decode_last. change (Byte.eqb pad pad) with true. cbv iota.
  rewrite char_of_sextet_not_pad by assumption.
  rewrite !sextet_of_char_of_sextet by assumption.
  unfold sextets in S. injection S as <- <- <- _.
  apply bytes_of_group_2.
Qed.

(** *** Induction three bytes at a time, as the encoder recurses *)

Lemma list_ind3 {A : Type} (P : list A -> Prop) :
  P [] -> (forall a, P [a]) -> (forall a b, P [a; b]) ->
  (forall a b c l, P l -> P (a :: b :: c :: l)) ->
  forall l, P l.
Proof.
  intros H0 H1 H2 H3. fix IH 1.
  intros [|a [|b [|c l]]]; [exact H0|apply H1|apply H2|apply H3, IH].
Qed.

Lemma b64encode_nil_iff (data : list byte) : b64encode data = [] <-> data = [].
Proof.
  split; [|now intros ->].
  destruct data as [|a [|b [|c l]]]; [reflexivity|discriminate..].
Qed.

Lemma b64encode_length (data : list byte) :
  List.length (b64encode data) = (4 * ((List.length data + 2) / 3))%nat.
Proof.
  induction data as [| a | a b | a b c l IH] using list_ind3;
    [reflexivity..|].
  cbn [b64encode]. rewrite length_app, IH. cbn [List.length encode3 map sextets].
  replace (S (S (S (List.length l))) + 2)%nat
    with (1 * 3 + (List.length l + 2))%nat by lia.
  rewrite Nat.div_add_l by lia. lia.
Qed.

Lemma b64encode_chars (data : list byte) :
  forallb is_b64_char (b64encode data) = true.
Proof.
  induction data as [| a | a b | a b c l IH] using list_ind3.
  - reflexivity.
  - cbn [b64encode]. unfold encode3, sextets. cbn [map firstn app forallb].
    now rewrite !char_of_sextet_is_b64.
  - cbn [b64encode]. unfold encode3, sextets. cbn [map firstn app forallb].
    now rewrite !char_of_sextet_is_b64.
  - cbn [b64encode]. rewrite forallb_app, IH, andb_true_r.
    unfold encode3, sextets. cbn [map forallb].
    now rewrite !char_of_sextet_is_b64.
Qed.

(** Decoding undoes encoding. *)
Lemma b64decode_b64encode (data : list byte) :
  b64decode (b64encode data) = Some data.
Proof.
  induction data as [| a | a b | a b c l IH] using list_ind3.
  - reflexivity.
  - destruct (encode3_chars a x00 x00) as (s1 & s2 & s3 & s4 & E & _).
    cbn [b64encode]. rewrite E. cbn [firstn app b64decode].
    eapply decode_last_1. exact E.
  - destruct (encode3_chars a b x00) as (s1 & s2 & s3 & s4 & E & _).
    cbn [b64encode]. rewrite E. cbn [firstn app b64decode].
    eapply decode_last_2. exact E.
  - destruct (encode3_chars a b c) as (s1 & s2 & s3 & s4 & E & _).
    cbn [b64encode]. rewrite E. cbn [app b64decode].
    destruct (b64encode l) as [|x xs] eqn:El.
    + apply (proj1 (b64encode_nil_iff l)) in El. subst l.
      eapply decode_last_encode3. exact E.
    + rewrite (decode4_encode3 a b c _ _ _ _ E).
      change (match b64decode (x :: xs) with
              | Some y => Some ([a; b; c] ++ y)
              | None => None
              end = Some (a :: b :: c :: l)).
      now rewrite IH.
Qed.

End Base64.

(* ===================================================================== *)
(** ** The Python notions used by the module                             *)
(* ===================================================================== *)

Module Py.

(** Exception classes that can reach the handler of [_analyze_file]. All of
    them derive from [Exception]. *)
Inductive exn_class : Type :=
| ValueError
| UnicodeDecodeError
| AttributeError
| TypeError
| JSONDecodeError
| ValidationError        (* pydantic *)
| ServiceError.          (* whatever the OpenAI client raises *)

Inductive exn : Type := Exn (cls : exn_class) (msg : string).

(** [str(exc)] *)
Definition str (e : exn) : string := let 'Exn _ msg := e in msg.

Definition class_of (e : exn) : exn_class := let 'Exn cls _ := e in cls.

(** A call either returns a value or raises. *)
Inductive result (E A : Type) : Type :=
| Returned (a : A)
| Raised (e : E).
Arguments Returned {E A} a.
Arguments Raised {E A} e.

Definition bind {E A B : Type} (r : result E A) (k : A -> result E B)
  : result E B :=
  match r with
  | Returned a => k a
  | Raised e => Raised e
  end.

(** The values [json.loads] produces: [None], [bool], [int], [float] (kept as
    the text [str] prints for it), [str], [list] and [dict] (items in
    insertion order, keys distinct). *)
#[local] Unset Elimination Schemes.
Inductive json : Type :=
| JNull
| JBool (b : bool)
| JInt (n : Z)
| JFloat (repr : string)
| JStr (s : string)
| JList (l : list json)
| JDict (items : list (string * json)).
#[local] Set Elimination Schemes.

(** [d[k]] for a dict given by its items; [None] when the key is absent. *)
Fixpoint dict_get (k : string) (items : list (string * json)) : option json :=
  match items with
  | [] => None
  | (k', v) :: rest => if String.eqb k k' then Some v else dict_get k rest
  end.

(** [x or d] for [x : Optional[str]]: [None] and the empty string are
    falsy. *)
Definition or_str (x : option string) (d : string) : string :=
  match x with
  | Some s => if String.eqb s "" then d else s
  | None => d
  end.

(** Truthiness of an [Optional[str]]. *)
Definition truthy (x : option string) : bool :=
  match x with
  | Some s => negb (String.eqb s "")
  | None => false
  end.

(** [str(n)] for an [int]. *)
Definition str_of_int (n : Z) : string := NilZero.string_of_int (Z.to_int n).

(** [str(b)] for a [bool]. *)
Definition str_of_bool (b : bool) : string := if b then "True" else "False".

(** [bytes.decode("ascii")] *)
Definition is_ascii (b : byte) : bool := N.ltb (Byte.to_N b) 128.

(** [s.removeprefix(m)], when [s] starts with [m]. *)
Fixpoint strip_prefix (m s : string) : option string :=
  match m, s with
  | EmptyString, _ => Some s
  | String a m', String b s' =>
      if Ascii.eqb a b then strip_prefix m' s' else None
  | String _ _, EmptyString => None
  end.

(** [s.partition(m)[2]]: what follows the first occurrence of [m] in [s];
    [None] when [m] does not occur. *)
Fixpoint after_first (m s : string) : option string :=
  match strip_prefix m s with
  | Some r => Some r
  | None =>
      match s with
      | EmptyString => None
      | String _ s' => after_first m s'
      end
  end.

(** [s.rpartition(m)[2]]: what follows the last occurrence of [m] in [s];
    [None] when [m] does not occur. *)
Fixpoint after_last (m s : string) : option string :=
  match s with
  | EmptyString => strip_prefix m EmptyString
  | String _ s' =>
      match after_last m s' with
      | Some r => Some r
      | None => strip_prefix m s
      end
  end.

(** [c in s] *)
Fixpoint occurs (c : ascii) (s : string) : bool :=
  match s with
  | EmptyString => false
  | String x s' => Ascii.eqb x c || occurs c s'
  end.

(** [s.partition(c)[0]]: what precedes the first [c]. *)
Fixpoint before (c : ascii) (s : string) : string :=
  match s with
  | EmptyString => EmptyString
  | String x s' => if Ascii.eqb x c then EmptyString else String x (before c s')
  end.

End Py.

Export Py.

(** ** Facts about the string operations *)

Module PyFacts.

Lemma strip_prefix_app (m r : string) : strip_prefix m (m ++ r) = Some r.
Proof.
  induction m as [|a m IH]; [reflexivity|].
  cbn. now rewrite Ascii.eqb_refl.
Qed.

Lemma strip_prefix_Some (m s r : string) :
  strip_prefix m s = Some r -> s = m ++ r.
Proof.
  revert s. induction m as [|a m IH]; intros s H.
  - cbn in H. now injection H as ->.
  - destruct s as [|b s]; [discriminate|]. cbn in H.
    destruct (Ascii.eqb a b) eqn:E; [|discriminate].
    apply Ascii.eqb_eq in E. subst b. cbn. f_equal. now apply IH.
Qed.

Lemma occurs_app (c : ascii) (s t : string) :
  occurs c (s ++ t) = occurs c s || occurs c t.
Proof.
  induction s as [|x s IH]; [reflexivity|].
  cbn. now rewrite IH, orb_assoc.
Qed.

Lemma before_app (c : ascii) (s t : string) :
  occurs c s = false -> before c (s ++ String c t) = s.
Proof.
  induction s as [|x s IH]; intros H; cbn in *.
  - now rewrite Ascii.eqb_refl.
  - apply orb_false_iff in H as [Hx Hs]. rewrite Hx. f_equal. now apply IH.
Qed.

Lemma after_last_app (m p s r : string) :
  after_last m s = Some r -> after_last m (p ++ s) = Some r.
Proof.
  intros H. induction p as [|x p IH]; [exact H|].
  cbn. now rewrite IH.
Qed.

Lemma after_last_absent (m s : string) (c : ascii) :
  occurs c m = true -> occurs c s = false -> after_last m s = None.
Proof.
  intros Hm Hs.
  assert (Hno : forall t, occurs c t = false -> strip_prefix m t = None).
  { intros t Ht. destruct (strip_prefix m t) as [r|] eqn:E; [|reflexivity].
    apply strip_prefix_Some in E. subst t.
    rewrite occurs_app, Hm in Ht. discriminate. }
  induction s as [|x s IH].
  - cbn. now apply Hno.
  - cbn in Hs. apply orb_false_iff in Hs as [Hx Hs'].
    cbn [after_last]. rewrite (IH Hs'). apply Hno. cbn. now rewrite Hx, Hs'.
Qed.

Lemma append_assoc (s t u : string) : (s ++ t) ++ u = s ++ t ++ u.
Proof. induction s as [|x s IH]; [reflexivity|]. cbn. now rewrite IH. Qed.

Lemma length_append (s t : string) :
  String.length (s ++ t) = String.length s + String.length t.
Proof. induction s as [|x s IH]; [reflexivity|]. cbn. now rewrite IH. Qed.

Lemma after_first_hit (m s r : string) :
  strip_prefix m s = Some r -> after_first m s = Some r.
Proof. intros H. destruct s; cbn [after_first]; now rewrite H. Qed.

(** The marker that separates the header of a data URL from its payload. *)
Definition marker : string := "base64,".

Lemma marker_needs_comma (p r : string) :
  occurs "," p = false -> p <> "" ->
  strip_prefix marker (p ++ marker ++ r) = None.
Proof.
  intros Hp Hne.
  destruct (strip_prefix marker (p ++ marker ++ r)) as [r'|] eqn:E;
    [|reflexivity].
  exfalso. apply strip_prefix_Some in E.
  apply (f_equal (before ",")) in E.
  change (p ++ marker ++ r) with (p ++ "base64" ++ String "," r) in E.
  rewrite <- append_assoc, before_app in E
    by (rewrite occurs_app, Hp; reflexivity).
  cbn in E. apply (f_equal String.length) in E.
  rewrite length_append in E. cbn in E.
  destruct p; [now apply Hne|]. cbn in E. lia.
Qed.

(** When the header has no comma, the payload is what follows the first
    marker. *)
Lemma after_first_marker (p r : string) :
  occurs "," p = false -> after_first marker (p ++ marker ++ r) = Some r.
Proof.
  induction p as [|x p IH]; intros Hp.
  - apply after_first_hit. exact (strip_prefix_app marker r).
  - change ((String x p) ++ marker ++ r) with (String x (p ++ marker ++ r)).
    cbn [after_first].
    change (String x (p ++ marker ++ r)) with ((String x p) ++ marker ++ r).
    rewrite marker_needs_comma by (assumption || discriminate).
    apply IH. cbn in Hp. now apply orb_false_iff in Hp as [_ Hp].
Qed.

(** When the payload has no comma, it is what follows the last marker,
    whatever the header is. *)
Lemma after_last_marker (p r : string) :
  occurs "," r = false -> after_last marker (p ++ marker ++ r) = Some r.
Proof.
  intros Hr. apply after_last_app.
  pose proof (after_last_absent marker r "," eq_refl Hr) as Habs.
  cbn. now rewrite Habs.
Qed.

End PyFacts.

Declare Scope result_scope.
Delimit Scope result_scope with result.
Notation "'let*' x ':=' e 'in' k" := (bind e (fun x => k))
  (at level 10, x name, e at level 100, k at level 200) : result_scope.
Local Open Scope result_scope.

(* ===================================================================== *)
(** ** [backend_server/app.py]                                           *)
(* ===================================================================== *)

Module App.

Local Open Scope string_scope.
Local Open Scope list_scope.

(** *** Data model *)

(** [starlette.datastructures.UploadFile], as far as the module looks at it:
    [upload.filename] is an [Optional[str]], [upload_file] is what
    [upload.file.read()] returns. Every upload is read once. *)
Record UploadFile : Type := {
  upload_filename : option string;
  upload_file : list byte
}.

Record ProductOut : Type := {
  brand : option string;
  product_name : string;
  price : option string
}.

Record ImageResult : Type := {
  filename : string;
  type : string;
  products : list ProductOut;
  error : option string
}.

Record AnalyzeResponse : Type := { results : list ImageResult }.

(** The part of the arguments of [client.responses.create] that varies or
    identifies the call; [SYSTEM_PROMPT] and [JSON_SCHEMA] are module
    constants sent unchanged with every request. *)
Record request : Type := {
  model : string;
  instruction : string;
  image_url : string;
  detail : string
}.

(** What the module does to the outside world. *)
Inductive event : Type :=
| EvRead (upload : UploadFile)      (* upload.file.read() *)
| EvCall (req : request).           (* client.responses.create(...) *)

(** Faults detected by the interpreter or by pydantic. The text attached to
    them is theirs, not the module's. *)
Inductive fault : Type :=
| NoAttribute (v : json) (name : string)   (* v.name on a value without it *)
| NotIterable (v : json)                   (* for ... in v *)
| NotAMapping (v : json)                   (* v unpacked as keywords *)
| Invalid (cls : string) (fields : list string)   (* pydantic validation *)
| NotAscii.                                (* bytes.decode("ascii") *)

Inductive pydantic_version : Type := PydanticV1 | PydanticV2.

(** What [HTTPException] carries, and what escapes the endpoint otherwise. *)
Inductive failure : Type :=
| HTTPException (status_code : N) (detail : string)
| Uncaught (e : exn).

(** *** Computations: an outcome and the events emitted on the way *)

Definition M (A : Type) : Type := result exn A * list event.

Definition ret {A : Type} (a : A) : M A := (Returned a, []).
Definition raise {A : Type} (e : exn) : M A := (Raised e, []).
Definition lift {A : Type} (r : result exn A) : M A := (r, []).

Definition bindM {A B : Type} (m : M A) (k : A -> M B) : M B :=
  match m with
  | (Returned a, t) => let (r, t') := k a in (r, t ++ t')
  | (Raised e, t) => (Raised e, t)
  end.

(** [try: body except Exception as exc: handler(exc)] *)
Definition try_except {A : Type} (body : M A) (handler : exn -> M A) : M A :=
  match body with
  | (Returned a, t) => (Returned a, t)
  | (Raised e, t) => let (r, t') := handler e in (r, t ++ t')
  end.

Definition outcome {A : Type} (m : M A) : result exn A := fst m.
Definition emitted {A : Type} (m : M A) : list event := snd m.

Declare Scope M_scope.
Delimit Scope M_scope with M.
Notation "x <- e ;; k" := (bindM e (fun x => k))
  (at level 61, e at next level, right associativity) : M_scope.

Section Collaborators.

(** [mimetypes.guess_type(name)[0]] *)
Variable guess_type : string -> option string.

(** [json.loads] *)
Variable json_loads : string -> result exn json.

(** The major version of pydantic the server runs with. *)
Variable pydantic : pydantic_version.

(** The message the interpreter or pydantic attaches to a fault. *)
Variable message_of : fault -> string.

Definition fail {A : Type} (cls : exn_class) (f : fault) : result exn A :=
  Raised (Exn cls (message_of f)).

(** *** pydantic models *)

(** A field annotated [str]. pydantic 1 turns numbers into their text,
    pydantic 2 only takes strings. *)
Definition validate_str (v : json) : option string :=
  match v, pydantic with
  | JStr s, _ => Some s
  | JInt n, PydanticV1 => Some (str_of_int n)
  | JFloat repr, PydanticV1 => Some repr
  | JBool b, PydanticV1 => Some (str_of_bool b)
  | _, _ => None
  end.

(** A required field annotated [str]; [None] stands for a missing keyword. *)
Definition required_str (kw : option json) : option string :=
  match kw with
  | Some v => validate_str v
  | None => None
  end.

(** A field annotated [Optional[str]] with no default: with pydantic 1 it
    defaults to [None], with pydantic 2 it is required (and may be
    [None]). *)
Definition optional_str (kw : option json) : option (option string) :=
  match kw with
  | Some JNull => Some None
  | Some v => option_map Some (validate_str v)
  | None => match pydantic with
            | PydanticV1 => Some None
            | PydanticV2 => None
            end
  end.

Definition rejected {A : Type} (name : string) (v : option A) : list string :=
  match v with
  | Some _ => []
  | None => [name]
  end.

(** [ProductOut] called with the keywords [kwargs]; keywords that are not
    fields are ignored. *)
Definition ProductOut_init (kwargs : list (string * json))
  : result exn ProductOut :=
  let b := optional_str (dict_get "brand" kwargs) in
  let n := required_str (dict_get "product_name" kwargs) in
  let p := optional_str (dict_get "price" kwargs) in
  match b, n, p with
  | Some b', Some n', Some p' =>
      Returned {| brand := b'; product_name := n'; price := p' |}
  | _, _, _ =>
      fail ValidationError
        (Invalid "ProductOut"
           (rejected "brand" b ++ rejected "product_name" n
            ++ rejected "price" p))
  end.

(** [ImageResult(filename=fname, type=ty, products=ps, error=err)] where
    [fname] is an [Optional[str]], [ty] any value, [ps] a list of
    [ProductOut] instances and [err] an [Optional[str]]. *)
Definition ImageResult_init (fname : option string) (ty : json)
    (ps : list ProductOut) (err : option string) : result exn ImageResult :=
  let t := validate_str ty in
  match fname, t with
  | Some f, Some t' =>
      Returned {| filename := f; type := t'; products := ps; error := err |}
  | _, _ =>
      fail ValidationError
        (Invalid "ImageResult" (rejected "filename" fname ++ rejected "type" t))
  end.

(** *** The expressions of [_analyze_file] *)

(** [raw.get(key, default)]: only a dict has [get]. *)
Definition py_get (raw : json) (key : string) (default : json)
  : result exn json :=
  match raw with
  | JDict items =>
      Returned (match dict_get key items with
                | Some v => v
                | None => default
                end)
  | _ => fail AttributeError (NoAttribute raw "get")
  end.

(** [for item in v]: a list gives its elements, a dict its keys, a string
    its characters; nothing else can be iterated. *)
Definition iterate (v : json) : result exn (list json) :=
  match v with
  | JList l => Returned l
  | JDict items => Returned (map (fun kv => JStr (fst kv)) items)
  | JStr s =>
      Returned (map (fun c => JStr (String c EmptyString))
                    (list_ascii_of_string s))
  | _ => fail TypeError (NotIterable v)
  end.

(** [ProductOut] called with [item] unpacked as keywords: [item] has to be
    a mapping. *)
Definition product_of (item : json) : result exn ProductOut :=
  match item with
  | JDict kwargs => ProductOut_init kwargs
  | _ => fail TypeError (NotAMapping item)
  end.

(** The list comprehension building one [ProductOut] per item, in order. *)
Fixpoint products_of (items : list json) : result exn (list ProductOut) :=
  match items with
  | [] => Returned []
  | item :: rest =>
      let* p := product_of item in
      let* ps := products_of rest in
      Returned (p :: ps)
  end.

(** *** [_encode_image] *)

Definition read (upload : UploadFile) : M (list byte) :=
  (Returned (upload_file upload), [EvRead upload]).

(** [bytes.decode("ascii")] *)
Definition decode_ascii (bs : list byte) : result exn string :=
  if forallb is_ascii bs then Returned (string_of_list_byte bs)
  else fail UnicodeDecodeError NotAscii.

(** [mimetypes.guess_type(upload.filename or "")[0] or "image/png"] *)
Definition mime_type_of (upload : UploadFile) : string :=
  or_str (guess_type (or_str (upload_filename upload) "")) "image/png".

Local Open Scope M_scope.

Definition _encode_image (upload : UploadFile) : M string :=
  data <- read upload ;;
  match data with
  | [] => raise (Exn ValueError "empty file")
  | _ :: _ =>
      let mime_type := mime_type_of upload in
      b64_image <- lift (decode_ascii (Base64.b64encode data)) ;;
      ret ("data:" ++ mime_type ++ ";base64," ++ b64_image)%string
  end.

(** [ImageResult(filename=upload.filename, type=raw.get("type", "unknown"),
    products=[... for item in raw.get("extracted", [])])]: the arguments are
    evaluated from left to right, then the model is validated. *)
Definition products_from (raw : json) : result exn (list ProductOut) :=
  let* extracted := py_get raw "extracted" (JList []) in
  let* items := iterate extracted in
  products_of items.

Definition build_result (upload : UploadFile) (raw : json)
  : result exn ImageResult :=
  let* ty := py_get raw "type" (JStr "unknown") in
  let* ps := products_from raw in
  ImageResult_init (upload_filename upload) ty ps None.

(** [ImageResult(filename=upload.filename, type="error", products=[],
    error=str(exc))] *)
Definition error_result (upload : UploadFile) (exc : exn)
  : result exn ImageResult :=
  ImageResult_init (upload_filename upload) (JStr "error") [] (Some (str exc)).

(** What the [try] statement makes of the outcome of its body. *)
Definition handled (upload : UploadFile) (r : result exn ImageResult)
  : result exn ImageResult :=
  match r with
  | Returned x => Returned x
  | Raised exc => error_result upload exc
  end.

Section Client.

(** [client.responses.create(...).output_text] for one call: the text the
    service answers with, or the exception the client raises. *)
Variable responses_create : request -> result exn string.

Definition create (req : request) : M string :=
  (responses_create req, [EvCall req]).

Definition _call_model (image_data_url : string) : M json :=
  output_text <- create {| model := "gpt-4.1";
                           instruction := "Analyze this shopping screenshot.";
                           image_url := image_data_url;
                           detail := "high" |} ;;
  lift (json_loads output_text).

(** [await asyncio.to_thread(_call_model, data_url)] hands the call to a
    worker thread and gives back what it returns or raises. *)
Definition _analyze_file (upload : UploadFile) : M ImageResult :=
  try_except
    (data_url <- _encode_image upload ;;
     raw <- _call_model data_url ;;
     lift (build_result upload raw))
    (fun exc => lift (error_result upload exc)).

End Client.

(** *** The coroutine seen by the event loop

    [_analyze_file] has one suspension point, the [await] of the worker
    thread. A task is either parked there or finished. *)
Inductive task : Type :=
| Suspended (upload : UploadFile) (data_url : string)
| Done (r : result exn ImageResult).

(** Run a fresh coroutine up to its suspension point. *)
Definition spawn (upload : UploadFile) : task * list event :=
  match _encode_image upload with
  | (Returned data_url, t) => (Suspended upload data_url, t)
  | (Raised exc, t) => (Done (error_result upload exc), t)
  end.

(** Run a parked coroutine to its end, once its worker thread is done. *)
Definition resume (responses_create : request -> result exn string)
    (tk : task) : task * list event :=
  match tk with
  | Suspended upload data_url =>
      let (r, t) := _call_model responses_create data_url in
      (Done (handled upload (let* raw := r in build_result upload raw)), t)
  | Done r => (Done r, [])
  end.

Definition result_of (tk : task) : option (result exn ImageResult) :=
  match tk with
  | Done r => Some r
  | Suspended _ _ => None
  end.

(** *** [analyze] *)

Section Batch.

(** [client.api_key] *)
Variable api_key : option string.

(** The service as the [i]-th task of a batch finds it. *)
Variable service : nat -> request -> result exn string.

Fixpoint set_nth {A : Type} (i : nat) (x : A) (l : list A) : list A :=
  match l, i with
  | [], _ => []
  | _ :: l', O => x :: l'
  | y :: l', S i' => y :: set_nth i' x l'
  end.

(** The state of [asyncio.gather] over the tasks: one slot per awaitable, in the
    order they were passed; the events so far; the first exception a task
    ended with, if any (that is the one [gather] propagates). *)
Record loop : Type := {
  slots : list task;
  trace : list event;
  failed : option exn
}.

Definition note (f : option exn) (tk : task) : option exn :=
  match f, tk with
  | Some e, _ => Some e
  | None, Done (Raised e) => Some e
  | None, _ => None
  end.

(** The tasks are started in the order of [files]; each runs up to its
    [await]. *)
Fixpoint start (files : list UploadFile) (st : loop) : loop :=
  match files with
  | [] => st
  | upload :: rest =>
      let (tk, t) := spawn upload in
      start rest {| slots := slots st ++ [tk];
                    trace := trace st ++ t;
                    failed := note (failed st) tk |}
  end.

(** The worker thread of task [i] is done: the task runs to its end. A task
    that is not parked is left alone. *)
Definition step (st : loop) (i : nat) : loop :=
  match nth_error (slots st) i with
  | Some (Suspended upload data_url) =>
      let (tk, t) := resume (service i) (Suspended upload data_url) in
      {| slots := set_nth i tk (slots st);
         trace := trace st ++ t;
         failed := note (failed st) tk |}
  | _ => st
  end.

(** [sched] lists the tasks in the order their worker threads finish. *)
Definition run (sched : list nat) (st : loop) : loop :=
  fold_left step sched st.

(** The results, slot by slot, once every task is done. *)
Fixpoint collect (tks : list task) : option (list ImageResult) :=
  match tks with
  | [] => Some []
  | Done (Returned r) :: rest =>
      match collect rest with
      | Some rs => Some (r :: rs)
      | None => None
      end
  | _ :: _ => None
  end.

(** What awaiting [asyncio.gather] gives: [None] while some task is still
    parked. *)
Definition gather (st : loop) : option (result exn (list ImageResult)) :=
  match failed st with
  | Some e => Some (Raised e)
  | None => option_map Returned (collect (slots st))
  end.

Definition analyze (files : list UploadFile) (sched : list nat)
  : option (result failure AnalyzeResponse) * list event :=
  match files with
  | [] =>
      (Some (Raised (HTTPException 400 "At least one image is required")), [])
  | _ :: _ =>
      if (10 <? List.length files)%nat then
        (Some (Raised (HTTPException 400 "Maximum of 10 images allowed")), [])
      else if negb (truthy api_key) then
        (Some (Raised (HTTPException 500 "OPENAI_API_KEY not configured")), [])
      else
        let st := run sched (start files {| slots := []; trace := [];
                                            failed := None |}) in
        (match gather st with
         | Some (Returned rs) => Some (Returned {| results := rs |})
         | Some (Raised e) => Some (Raised (Uncaught e))
         | None => None
         end, trace st)
  end.

End Batch.

(** *** The encoder *)

Lemma b64_char_is_ascii (b : byte) :
  Base64.is_b64_char b = true -> is_ascii b = true.
Proof. destruct b; vm_compute; congruence. Qed.

Lemma b64_char_not_comma (b : byte) :
  Base64.is_b64_char b = true -> Ascii.eqb (ascii_of_byte b) "," = false.
Proof. destruct b; vm_compute; congruence. Qed.

Lemma forallb_impl {A : Type} (f g : A -> bool) (l : list A) :
  (forall x, f x = true -> g x = true) ->
  forallb f l = true -> forallb g l = true.
Proof.
  intros Hfg H. apply forallb_forall. intros x Hx.
  apply Hfg. revert x Hx. now apply forallb_forall.
Qed.

Lemma decode_ascii_b64encode (data : list byte) :
  decode_ascii (Base64.b64encode data)
  = Returned (string_of_list_byte (Base64.b64encode data)).
Proof.
  unfold decode_ascii.
  now rewrite (forallb_impl _ _ _ b64_char_is_ascii
                 (Base64.b64encode_chars data)).
Qed.

Lemma b64_text_no_comma (bs : list byte) :
  forallb Base64.is_b64_char bs = true ->
  occurs "," (string_of_list_byte bs) = false.
Proof.
  induction bs as [|b bs IH]; [reflexivity|]. cbn [forallb].
  intros H. apply andb_true_iff in H as [Hb Hbs].
  change (string_of_list_byte (b :: bs))
    with (String (ascii_of_byte b) (string_of_list_byte bs)).
  cbn [occurs]. now rewrite (b64_char_not_comma b Hb), (IH Hbs).
Qed.

Lemma length_string_of_list_byte (bs : list byte) :
  String.length (string_of_list_byte bs) = List.length bs.
Proof.
  induction bs as [|b bs IH]; [reflexivity|].
  change (string_of_list_byte (b :: bs))
    with (String (ascii_of_byte b) (string_of_list_byte bs)).
  cbn [String.length List.length]. now rewrite IH.
Qed.

(** The data URL built from a non-empty buffer. *)
Definition data_url_of (upload : UploadFile) : string :=
  ("data:" ++ mime_type_of upload ++ ";base64,"
   ++ string_of_list_byte (Base64.b64encode (upload_file upload)))%string.

Lemma encode_image_empty (upload : UploadFile) :
  upload_file upload = [] ->
  _encode_image upload = (Raised (Exn ValueError "empty file"), [EvRead upload]).
Proof. intros H. unfold _encode_image, read, bindM. now rewrite H. Qed.

Lemma encode_image_nonempty (upload : UploadFile) :
  upload_file upload <> [] ->
  _encode_image upload = (Returned (data_url_of upload), [EvRead upload]).
Proof.
  intros H. unfold _encode_image, read, bindM, data_url_of.
  destruct (upload_file upload) as [|b bs] eqn:E; [congruence|].
  unfold lift. now rewrite decode_ascii_b64encode.
Qed.

Lemma or_str_filename (name : string) : or_str (Some name) "" = name.
Proof.
  unfold or_str. destruct (String.eqb name "") eqn:E; [|reflexivity].
  now apply String.eqb_eq in E.
Qed.

(** C5. [_encode_image] on a byte buffer and an optional filename: an empty
    buffer raises [ValueError("empty file")]; any other buffer gives the text
    [data:<mime>;base64,<payload>] where the payload is the base64 encoding
    of the buffer (four characters of the alphabet or [=] for every three
    bytes started, hence no line break), and the MIME type is the one
    [mimetypes.guess_type] infers from the filename, or [image/png] when it
    infers none or when there is no filename to infer it from. *)
Theorem encode_image_spec (upload : UploadFile) :
  (upload_file upload = [] ->
   outcome (_encode_image upload) = Raised (Exn ValueError "empty file")) /\
  (upload_file upload <> [] ->
   exists mime payload : string,
     outcome (_encode_image upload)
     = Returned ("data:" ++ mime ++ ";base64," ++ payload)%string /\
     list_byte_of_string payload = Base64.b64encode (upload_file upload) /\
     forallb Base64.is_b64_char (list_byte_of_string payload) = true /\
     String.length payload = 4 * ((List.length (upload_file upload) + 2) / 3) /\
     (forall name m, upload_filename upload = Some name ->
                     guess_type name = Some m -> m <> "" -> mime = m) /\
     (forall name, upload_filename upload = Some name ->
                   guess_type name = None -> mime = "image/png") /\
     (upload_filename upload = None -> guess_type "" = None ->
      mime = "image/png")).
Proof.
  split.
  - intros H. now rewrite encode_image_empty.
  - intros H. rewrite (encode_image_nonempty upload H).
    exists (mime_type_of upload),
           (string_of_list_byte (Base64.b64encode (upload_file upload))).
    rewrite list_byte_of_string_of_list_byte, length_string_of_list_byte.
    repeat split.
    + apply Base64.b64encode_chars.
    + apply Base64.b64encode_length.
    + intros name m Hn Hg Hm. unfold mime_type_of.
      rewrite Hn, or_str_filename, Hg. cbn.
      destruct (String.eqb m "") eqn:E; [|reflexivity].
      now apply String.eqb_eq in E.
    + intros name Hn Hg. unfold mime_type_of.
      now rewrite Hn, or_str_filename, Hg.
    + intros Hn Hg. unfold mime_type_of. rewrite Hn. cbn. now rewrite Hg.
Qed.

(** C9. For a non-empty buffer, base64-decoding what follows [base64,] in
    the text [_encode_image] returns gives the buffer back. The payload is
    what follows the last [base64,]; it is also what follows the first one
    as soon as the MIME type has no comma. *)
Theorem encode_image_roundtrip (upload : UploadFile) :
  upload_file upload <> [] ->
  exists url payload : string,
    outcome (_encode_image upload) = Returned url /\
    after_last "base64," url = Some payload /\
    Base64.b64decode (list_byte_of_string payload) = Some (upload_file upload) /\
    (occurs "," (mime_type_of upload) = false ->
     after_first "base64," url = Some payload).
Proof.
  intros H. rewrite (encode_image_nonempty upload H).
  exists (data_url_of upload),
         (string_of_list_byte (Base64.b64encode (upload_file upload))).
  assert (Hurl : data_url_of upload
                 = (("data:" ++ mime_type_of upload ++ ";") ++ PyFacts.marker
                    ++ string_of_list_byte
                         (Base64.b64encode (upload_file upload)))%string).
  { unfold data_url_of, PyFacts.marker. cbn.
    now rewrite !PyFacts.append_assoc. }
  repeat split.
  - rewrite Hurl. apply PyFacts.after_last_marker, b64_text_no_comma,
      Base64.b64encode_chars.
  - rewrite list_byte_of_string_of_list_byte.
    apply Base64.b64decode_b64encode.
  - intros Hm. rewrite Hurl. apply PyFacts.after_first_marker.
    cbn. rewrite PyFacts.occurs_app, Hm. reflexivity.
Qed.

(** *** The per-image orchestrator *)

Lemma outcome_bindM {A B : Type} (m : M A) (k : A -> M B) :
  outcome (bindM m k) = let* a := outcome m in outcome (k a).
Proof.
  destruct m as [[a|e] t]; cbn; [|reflexivity].
  now destruct (k a).
Qed.

Lemma outcome_try_except {A : Type} (body : M A) (h : exn -> result exn A) :
  outcome (try_except body (fun exc => lift (h exc)))
  = match outcome body with
    | Returned a => Returned a
    | Raised exc => h exc
    end.
Proof. now destruct body as [[a|e] t]. Qed.

Lemma outcome_analyze_file (rc : request -> result exn string)
    (upload : UploadFile) :
  outcome (_analyze_file rc upload)
  = handled upload
      (let* data_url := outcome (_encode_image upload) in
       let* raw := outcome (_call_model rc data_url) in
       build_result upload raw).
Proof.
  unfold _analyze_file. rewrite outcome_try_except, outcome_bindM.
  unfold handled. destruct (outcome (_encode_image upload)) as [url|e];
    cbn [bind]; [|reflexivity].
  rewrite outcome_bindM.
  now destruct (outcome (_call_model rc url)).
Qed.

Lemma error_result_named (upload : UploadFile) (f : string) (exc : exn) :
  upload_filename upload = Some f ->
  error_result upload exc
  = Returned {| filename := f; type := "error"; products := [];
                error := Some (str exc) |}.
Proof. intros H. unfold error_result, ImageResult_init. now rewrite H. Qed.

Lemma ImageResult_init_unnamed (ty : json) (ps : list ProductOut)
    (err : option string) :
  exists fields,
    ImageResult_init None ty ps err
    = Raised (Exn ValidationError (message_of (Invalid "ImageResult" fields))).
Proof. unfold ImageResult_init, fail. now eexists. Qed.

Lemma ImageResult_init_Returned (fname : option string) (ty : json)
    (ps : list ProductOut) (err : option string) (r : ImageResult) :
  ImageResult_init fname ty ps err = Returned r ->
  fname = Some (filename r) /\ validate_str ty = Some (type r) /\
  products r = ps /\ error r = err.
Proof.
  unfold ImageResult_init, fail.
  destruct fname as [f|]; [|discriminate].
  destruct (validate_str ty) as [t|]; [|discriminate].
  intros [= <-]. now cbn.
Qed.

Lemma build_result_Returned (upload : UploadFile) (raw : json)
    (r : ImageResult) :
  build_result upload raw = Returned r ->
  upload_filename upload = Some (filename r) /\ error r = None /\
  products_from raw = Returned (products r) /\
  exists ty, py_get raw "type" (JStr "unknown") = Returned ty /\
             validate_str ty = Some (type r).
Proof.
  unfold build_result.
  destruct (py_get raw "type" (JStr "unknown")) as [ty|e]; [|discriminate].
  cbn [bind].
  destruct (products_from raw) as [ps|e]; [|discriminate]. cbn [bind].
  intros H. apply ImageResult_init_Returned in H as (Hf & Ht & Hp & He).
  subst ps. repeat split; try assumption. now exists ty.
Qed.

Lemma error_result_Returned (upload : UploadFile) (exc : exn)
    (r : ImageResult) :
  error_result upload exc = Returned r ->
  upload_filename upload = Some (filename r) /\ type r = "error" /\
  products r = [] /\ error r = Some (str exc).
Proof.
  intros H. apply ImageResult_init_Returned in H as (Hf & Ht & Hp & He).
  cbn in Ht. injection Ht as Ht. now repeat split.
Qed.

(** With a filename, the orchestrator always returns. *)
Lemma analyze_file_returns (rc : request -> result exn string)
    (upload : UploadFile) (f : string) :
  upload_filename upload = Some f ->
  exists r, outcome (_analyze_file rc upload) = Returned r /\ filename r = f.
Proof.
  intros Hf. rewrite outcome_analyze_file. unfold handled.
  destruct (let* data_url := outcome (_encode_image upload) in
            let* raw := outcome (_call_model rc data_url) in
            build_result upload raw) as [r|e] eqn:E.
  - exists r. split; [reflexivity|].
    destruct (outcome (_encode_image upload)) as [url|]; [|discriminate].
    cbn [bind] in E.
    destruct (outcome (_call_model rc url)) as [raw|]; [|discriminate].
    cbn [bind] in E. apply build_result_Returned in E as [E _]. congruence.
  - rewrite (error_result_named upload f e Hf). now eexists.
Qed.

(** Without one, building the result fails in the body and again in the
    handler: the orchestrator raises. *)
Lemma analyze_file_raises (rc : request -> result exn string)
    (upload : UploadFile) :
  upload_filename upload = None ->
  exists msg,
    outcome (_analyze_file rc upload) = Raised (Exn ValidationError msg).
Proof.
  intros Hf. rewrite outcome_analyze_file. unfold handled.
  destruct (let* data_url := outcome (_encode_image upload) in
            let* raw := outcome (_call_model rc data_url) in
            build_result upload raw) as [r|e] eqn:E.
  - exfalso.
    destruct (outcome (_encode_image upload)) as [url|]; [|discriminate].
    cbn [bind] in E.
    destruct (outcome (_call_model rc url)) as [raw|]; [|discriminate].
    cbn [bind] in E. apply build_result_Returned in E as [E _]. congruence.
  - unfold error_result. rewrite Hf.
    destruct (ImageResult_init_unnamed (JStr "error") [] (Some (str e)))
      as [fields ->].
    now eexists.
Qed.

(** The two shapes of an [ImageResult]. *)
Definition success_shape (rc : request -> result exn string)
    (upload : UploadFile) (r : ImageResult) : Prop :=
  error r = None /\
  exists data_url raw,
    outcome (_encode_image upload) = Returned data_url /\
    outcome (_call_model rc data_url) = Returned raw /\
    build_result upload raw = Returned r.

Definition error_shape (r : ImageResult) : Prop :=
  type r = "error" /\ products r = [] /\ exists msg, error r = Some msg.

(** C4. Every [ImageResult] the orchestrator returns has exactly one of the
    two shapes: built from the extraction with no error message, or
    [type="error"] with no product and an error message. In particular a
    result that carries an error message has [type="error"]. *)
Theorem result_exclusive (rc : request -> result exn string)
    (upload : UploadFile) (r : ImageResult) :
  outcome (_analyze_file rc upload) = Returned r ->
  (success_shape rc upload r /\ ~ error_shape r \/
   error_shape r /\ ~ success_shape rc upload r) /\
  (error r <> None -> type r = "error").
Proof.
  rewrite outcome_analyze_file. unfold handled. intros H.
  destruct (let* data_url := outcome (_encode_image upload) in
            let* raw := outcome (_call_model rc data_url) in
            build_result upload raw) as [r'|e] eqn:E.
  - injection H as ->.
    destruct (outcome (_encode_image upload)) as [url|] eqn:E1; [|discriminate].
    cbn [bind] in E.
    destruct (outcome (_call_model rc url)) as [raw|] eqn:E2; [|discriminate].
    cbn [bind] in E.
    pose proof (build_result_Returned _ _ _ E) as (_ & Hnone & _).
    split; [left; split|].
    + split; [assumption|]. now exists url, raw.
    + intros (_ & _ & msg & Hmsg). congruence.
    + congruence.
  - apply error_result_Returned in H as (_ & Ht & Hp & He).
    split; [right; split|].
    + repeat split; try assumption. now exists (str e).
    + intros [Hnone _]. congruence.
    + intros _. assumption.
Qed.

(** C10. The [ImageResult] the orchestrator returns carries the filename of
    the upload, whether it was built by the body of the [try] or by its
    handler; and an upload that has a filename always gets such a result. *)
Theorem filename_preserved (rc : request -> result exn string)
    (upload : UploadFile) :
  (forall raw r, build_result upload raw = Returned r ->
                 upload_filename upload = Some (filename r)) /\
  (forall exc r, error_result upload exc = Returned r ->
                 upload_filename upload = Some (filename r)) /\
  (forall r, outcome (_analyze_file rc upload) = Returned r ->
             upload_filename upload = Some (filename r)) /\
  (forall f, upload_filename upload = Some f ->
             exists r, outcome (_analyze_file rc upload) = Returned r /\
                       filename r = f).
Proof.
  repeat split.
  - intros raw r H. now apply build_result_Returned in H.
  - intros exc r H. now apply error_result_Returned in H.
  - intros r H. destruct (upload_filename upload) as [f|] eqn:Hf.
    + destruct (analyze_file_returns rc upload f Hf) as (r' & Hr & <-).
      congruence.
    + destruct (analyze_file_raises rc upload Hf) as [msg Hr]. congruence.
  - intros f Hf. now apply analyze_file_returns.
Qed.

(** For an upload that has a filename, every failure of the body ends up
    in an error result that carries its message. *)
Lemma analyze_file_isolates (rc : request -> result exn string)
    (upload : UploadFile) (f : string) (exc : exn) :
  upload_filename upload = Some f ->
  (let* data_url := outcome (_encode_image upload) in
   let* raw := outcome (_call_model rc data_url) in
   build_result upload raw) = Raised exc ->
  outcome (_analyze_file rc upload)
  = Returned {| filename := f; type := "error"; products := [];
                error := Some (str exc) |}.
Proof.
  intros Hf H. rewrite outcome_analyze_file, H. cbn [handled].
  now apply error_result_named.
Qed.

(** C2, where the code departs from it. For an upload without a filename,
    [ImageResult] rejects [filename=None] in the handler as it does in the
    body of the [try], whatever was caught: the orchestrator raises a
    [ValidationError] instead of returning an error result. *)
Theorem orchestrator_raises_unnamed (rc : request -> result exn string)
    (upload : UploadFile) :
  upload_filename upload = None ->
  (forall raw r, build_result upload raw <> Returned r) /\
  (forall exc, exists msg,
      error_result upload exc = Raised (Exn ValidationError msg)) /\
  exists msg,
    outcome (_analyze_file rc upload) = Raised (Exn ValidationError msg).
Proof.
  intros Hf. repeat split.
  - intros raw r H. apply build_result_Returned in H as [H _]. congruence.
  - intros exc. unfold error_result. rewrite Hf.
    destruct (ImageResult_init_unnamed (JStr "error") [] (Some (str exc)))
      as [fields ->].
    now eexists.
  - now apply analyze_file_raises.
Qed.

(** *** From the service's answer to the result *)

Lemma analyze_file_extracted (rc : request -> result exn string)
    (upload : UploadFile) (raw : json) :
  upload_file upload <> [] ->
  outcome (_call_model rc (data_url_of upload)) = Returned raw ->
  outcome (_analyze_file rc upload) = handled upload (build_result upload raw).
Proof.
  intros Hne Hraw. rewrite outcome_analyze_file.
  rewrite (encode_image_nonempty upload Hne). cbn [outcome fst bind].
  fold (outcome (_call_model rc (data_url_of upload))).
  now rewrite Hraw.
Qed.

Lemma products_of_app (earlier later : list json) (item : json)
    (ps1 : list ProductOut) :
  products_of earlier = Returned ps1 ->
  products_of (earlier ++ item :: later)
  = let* p := product_of item in
    let* ps2 := products_of later in
    Returned (ps1 ++ p :: ps2).
Proof.
  revert ps1. induction earlier as [|x l IH]; intros ps1 H.
  - cbn in H. injection H as <-. reflexivity.
  - cbn [products_of app] in *.
    destruct (product_of x) as [p|e]; [|discriminate]. cbn [bind] in *.
    destruct (products_of l) as [ps|e]; [|discriminate]. cbn [bind] in *.
    injection H as <-. rewrite (IH ps eq_refl).
    destruct (product_of item) as [q|e]; [|reflexivity]. cbn [bind].
    now destruct (products_of later).
Qed.

(** The answer of the round-trip example of the specification. *)
Definition checkout_response : json :=
  JDict [("type", JStr "checkout page");
         ("extracted",
          JList [JDict [("brand", JStr "Nike");
                        ("product_name", JStr "Running Shorts");
                        ("price", JStr "$24.99")]])].

(** C7. When the service answers the example response (type "checkout
    page", one extracted item with brand "Nike", product name "Running
    Shorts" and price "$24.99"), the orchestrator returns an [ImageResult]
    of type "checkout page", with no error and exactly that product. *)
Theorem checkout_roundtrip (rc : request -> result exn string)
    (upload : UploadFile) (f : string) :
  upload_filename upload = Some f ->
  upload_file upload <> [] ->
  outcome (_call_model rc (data_url_of upload)) = Returned checkout_response ->
  outcome (_analyze_file rc upload)
  = Returned {| filename := f;
                type := "checkout page";
                products := [ {| brand := Some "Nike";
                                 product_name := "Running Shorts";
                                 price := Some "$24.99" |} ];
                error := None |}.
Proof.
  intros Hf Hne Hraw. rewrite (analyze_file_extracted rc upload _ Hne Hraw).
  unfold build_result, ImageResult_init. rewrite Hf. reflexivity.
Qed.

(** C8. When the parsed answer is an object without the [type] key, the
    result has type "unknown"; when it is without the [extracted] key, the
    result has no product. Neither omission makes the result an error: the
    rest of the answer goes into the result as usual. *)
Theorem missing_keys_default (rc : request -> result exn string)
    (upload : UploadFile) (f : string) (items : list (string * json)) :
  upload_filename upload = Some f ->
  upload_file upload <> [] ->
  outcome (_call_model rc (data_url_of upload)) = Returned (JDict items) ->
  (dict_get "type" items = None ->
   forall ps, products_from (JDict items) = Returned ps ->
   outcome (_analyze_file rc upload)
   = Returned {| filename := f; type := "unknown"; products := ps;
                 error := None |}) /\
  (dict_get "extracted" items = None ->
   forall ty t, dict_get "type" items = Some ty -> validate_str ty = Some t ->
   outcome (_analyze_file rc upload)
   = Returned {| filename := f; type := t; products := [];
                 error := None |}) /\
  (dict_get "type" items = None -> dict_get "extracted" items = None ->
   outcome (_analyze_file rc upload)
   = Returned {| filename := f; type := "unknown"; products := [];
                 error := None |}).
Proof.
  intros Hf Hne Hraw. rewrite (analyze_file_extracted rc upload _ Hne Hraw).
  unfold build_result, ImageResult_init. rewrite Hf.
  repeat split.
  - intros Ht ps Hps. cbn [py_get bind]. now rewrite Ht, Hps.
  - intros He ty t Ht Hv. unfold products_from. cbn [py_get bind].
    rewrite Ht, He. cbn [iterate products_of bind]. now rewrite Hv.
  - intros Ht He. unfold products_from. cbn [py_get bind].
    now rewrite Ht, He.
Qed.

(** C6, as the code has it. An extracted item whose [brand] is [null] gives
    a product whose brand is [None], and the result is not an error. An item
    that has no [brand] key at all does so only with pydantic 1, where an
    [Optional[str]] field defaults to [None]; with pydantic 2 the field is
    required, the model is rejected and the whole image gets an error
    result. *)
Theorem brand_null_or_missing (rc : request -> result exn string)
    (upload : UploadFile) (f t : string) (earlier later : list json)
    (kwargs : list (string * json)) (ps1 ps2 : list ProductOut)
    (n : string) (pr : option string) :
  upload_filename upload = Some f ->
  upload_file upload <> [] ->
  outcome (_call_model rc (data_url_of upload))
  = Returned (JDict [("type", JStr t);
                     ("extracted", JList (earlier ++ JDict kwargs :: later))]) ->
  products_of earlier = Returned ps1 ->
  products_of later = Returned ps2 ->
  required_str (dict_get "product_name" kwargs) = Some n ->
  optional_str (dict_get "price" kwargs) = Some pr ->
  (dict_get "brand" kwargs = Some JNull \/
   dict_get "brand" kwargs = None /\ pydantic = PydanticV1 ->
   outcome (_analyze_file rc upload)
   = Returned {| filename := f; type := t;
                 products := ps1 ++ {| brand := None; product_name := n;
                                       price := pr |} :: ps2;
                 error := None |}) /\
  (dict_get "brand" kwargs = None -> pydantic = PydanticV2 ->
   exists msg,
     outcome (_analyze_file rc upload)
     = Returned {| filename := f; type := "error"; products := [];
                   error := Some msg |}).
Proof.
  intros Hf Hne Hraw H1 H2 Hn Hp.
  rewrite (analyze_file_extracted rc upload _ Hne Hraw).
  unfold build_result. cbn [py_get dict_get String.eqb Ascii.eqb Bool.eqb bind].
  unfold products_from.
  cbn [py_get dict_get String.eqb Ascii.eqb Bool.eqb bind iterate].
  rewrite (products_of_app _ _ _ _ H1), H2.
  cbn [product_of]. unfold ProductOut_init. rewrite Hn, Hp.
  split.
  - intros [Hb | [Hb Hv]]; rewrite Hb; cbn [optional_str]; [|rewrite Hv];
      cbn [bind handled]; unfold ImageResult_init; now rewrite Hf.
  - intros Hb Hv. rewrite Hb. cbn [optional_str]. rewrite Hv.
    unfold fail. cbn [bind handled].
    rewrite (error_result_named upload f _ Hf). now eexists.
Qed.

(** *** The batch coordinator *)

Lemma length_set_nth {A : Type} (i : nat) (x : A) (l : list A) :
  List.length (set_nth i x l) = List.length l.
Proof.
  revert i. induction l as [|y l IH]; intros [|i]; cbn; auto.
Qed.

Lemma nth_error_set_nth_eq {A : Type} (i : nat) (x : A) (l : list A) :
  i < List.length l -> nth_error (set_nth i x l) i = Some x.
Proof.
  revert i. induction l as [|y l IH]; intros [|i] H; cbn in *;
    try lia; [reflexivity|]. apply IH. lia.
Qed.

Lemma nth_error_set_nth_ne {A : Type} (i j : nat) (x : A) (l : list A) :
  i <> j -> nth_error (set_nth i x l) j = nth_error l j.
Proof.
  revert i j. induction l as [|y l IH]; intros [|i] [|j] H; cbn;
    try reflexivity; try congruence. apply IH. congruence.
Qed.

(** Running a coroutine in two legs is running it. *)
Lemma spawn_resume (rc : request -> result exn string) (upload : UploadFile) :
  fst (resume rc (fst (spawn upload)))
  = Done (outcome (_analyze_file rc upload)).
Proof.
  rewrite outcome_analyze_file. unfold spawn.
  destruct (_encode_image upload) as [[url|e] t]; cbn [fst outcome bind].
  - cbn [resume]. unfold outcome.
    now destruct (_call_model rc url) as [r t'].
  - reflexivity.
Qed.

Lemma spawn_emitted (rc : request -> result exn string)
    (upload : UploadFile) :
  emitted (_analyze_file rc upload)
  = snd (spawn upload) ++ snd (resume rc (fst (spawn upload))).
Proof.
  unfold _analyze_file, spawn, emitted, try_except, bindM, lift, error_result.
  destruct (_encode_image upload) as [[url|e] t]; cbn [fst snd].
  - cbn [resume]. destruct (_call_model rc url) as [[raw|e] t']; cbn [fst snd].
    + destruct (build_result upload raw); cbn [snd];
        now rewrite ?app_nil_r.
    + now rewrite app_nil_r.
  - now rewrite !app_nil_r.
Qed.

Lemma resume_Done (rc : request -> result exn string)
    (r : result exn ImageResult) :
  fst (resume rc (Done r)) = Done r.
Proof. reflexivity. Qed.

Section BatchFacts.

Variable api_key : option string.
Variable service : nat -> request -> result exn string.
Variable files : list UploadFile.

(** What task [i] ends with. *)
Definition final (i : nat) (upload : UploadFile) : result exn ImageResult :=
  outcome (_analyze_file (service i) upload).

Definition done_at (i : nat) (upload : UploadFile) (st : loop) : Prop :=
  nth_error (slots st) i = Some (Done (final i upload)).

(** Slot [i] holds the task of the [i]-th file, parked at its [await] or
    finished with its own outcome; no task has ended with an exception. *)
Record consistent (st : loop) : Prop := {
  slots_length : List.length (slots st) = List.length files;
  slots_tasks :
    forall i upload, nth_error files i = Some upload ->
      nth_error (slots st) i = Some (fst (spawn upload)) \/
      done_at i upload st;
  none_failed : failed st = None
}.

Hypothesis named : forall upload, In upload files -> upload_filename upload <> None.

Lemma final_Returned (i : nat) (upload : UploadFile) :
  nth_error files i = Some upload ->
  exists r, final i upload = Returned r /\
            upload_filename upload = Some (filename r).
Proof.
  intros H. apply nth_error_In in H.
  destruct (upload_filename upload) as [f|] eqn:Hf;
    [|now apply named in H].
  destruct (analyze_file_returns (service i) upload f Hf) as (r & Hr & <-).
  now exists r.
Qed.

Lemma spawned_done (i : nat) (upload : UploadFile)
    (r : result exn ImageResult) :
  fst (spawn upload) = Done r -> r = final i upload.
Proof.
  intros H. pose proof (spawn_resume (service i) upload) as E.
  rewrite H in E. cbn in E. now injection E.
Qed.

Lemma slots_start (us : list UploadFile) (st : loop) :
  slots (start us st) = slots st ++ map (fun u => fst (spawn u)) us.
Proof.
  revert st. induction us as [|u us IH]; intros st; cbn [start map].
  - now rewrite app_nil_r.
  - destruct (spawn u) as [tk t] eqn:E. rewrite IH. cbn [slots fst].
    now rewrite <- app_assoc.
Qed.

Lemma failed_start (us : list UploadFile) (st : loop) :
  (forall u, In u us -> upload_filename u <> None) ->
  failed st = None -> failed (start us st) = None.
Proof.
  revert st. induction us as [|u us IH]; intros st Hn Hf; cbn [start];
    [assumption|].
  destruct (spawn u) as [tk t] eqn:E. apply IH.
  - intros u' Hu'. apply Hn. now right.
  - cbn [failed]. rewrite Hf. destruct tk as [u' url|[r|e]]; try reflexivity.
    exfalso. unfold spawn in E.
    destruct (_encode_image u) as [[url|e'] t']; [discriminate|].
    destruct (upload_filename u) as [f|] eqn:Hfn;
      [|apply (Hn u); [now left|assumption]].
    rewrite (error_result_named u f e' Hfn) in E. discriminate.
Qed.

Lemma start_consistent :
  consistent (start files {| slots := []; trace := []; failed := None |}).
Proof.
  constructor.
  - rewrite slots_start. cbn. now rewrite length_map.
  - intros i u H. left. rewrite slots_start. cbn.
    now rewrite nth_error_map, H.
  - now apply failed_start.
Qed.

Lemma step_consistent (st : loop) (i : nat) :
  consistent st -> consistent (step service st i).
Proof.
  intros [Hlen Htk Hf]. unfold step.
  destruct (nth_error (slots st) i) as [[u url|r]|] eqn:E;
    try (now constructor).
  assert (Hi : i < List.length files).
  { rewrite <- Hlen. apply nth_error_Some. congruence. }
  destruct (nth_error files i) as [u0|] eqn:Eu;
    [|apply nth_error_None in Eu; lia].
  assert (Hsp : fst (spawn u0) = Suspended u url).
  { destruct (Htk i u0 Eu) as [H|H]; [congruence|].
    unfold done_at in H. congruence. }
  pose proof (spawn_resume (service i) u0) as Hres. rewrite Hsp in Hres.
  destruct (resume (service i) (Suspended u url)) as [tk t] eqn:Er.
  cbn [fst] in Hres. subst tk.
  constructor; cbn [slots failed].
  - now rewrite length_set_nth.
  - intros j u' Hj. destruct (Nat.eq_dec i j) as [<-|Hne].
    + right. unfold done_at. cbn [slots].
      rewrite nth_error_set_nth_eq by lia.
      replace u' with u0 by congruence. reflexivity.
    + unfold done_at. cbn [slots].
      rewrite nth_error_set_nth_ne by assumption. now apply Htk.
  - rewrite Hf. destruct (final_Returned i u0 Eu) as (r & Hr & _).
    unfold final in Hr. now rewrite Hr.
Qed.

Lemma step_done (st : loop) (i : nat) (upload : UploadFile) :
  consistent st -> nth_error files i = Some upload ->
  done_at i upload (step service st i).
Proof.
  intros [Hlen Htk Hf] Hu. unfold step, done_at.
  assert (Hi : i < List.length files) by (apply nth_error_Some; congruence).
  destruct (Htk i upload Hu) as [H|H].
  - rewrite H. destruct (fst (spawn upload)) as [u url|r] eqn:Hsp.
    + pose proof (spawn_resume (service i) upload) as Hres.
      rewrite Hsp in Hres.
      destruct (resume (service i) (Suspended u url)) as [tk t] eqn:Er.
      cbn [fst] in Hres. subst tk. cbn [slots].
      apply nth_error_set_nth_eq. lia.
    + rewrite H. now rewrite (spawned_done i upload r Hsp).
  - unfold done_at in H. now rewrite H.
Qed.

Lemma step_keeps_done (st : loop) (i j : nat) (upload : UploadFile) :
  done_at j upload st -> done_at j upload (step service st i).
Proof.
  unfold done_at, step. intros H.
  destruct (nth_error (slots st) i) as [[u url|r]|] eqn:E; try assumption.
  destruct (resume (service i) (Suspended u url)) as [tk t]. cbn [slots].
  destruct (Nat.eq_dec i j) as [<-|Hne]; [congruence|].
  now rewrite nth_error_set_nth_ne.
Qed.

Lemma run_consistent (sched : list nat) (st : loop) :
  consistent st -> consistent (run service sched st).
Proof.
  revert st. induction sched as [|i sched IH]; intros st H; [assumption|].
  apply IH. now apply step_consistent.
Qed.

Lemma run_keeps_done (sched : list nat) (st : loop) (j : nat)
    (upload : UploadFile) :
  done_at j upload st -> done_at j upload (run service sched st).
Proof.
  revert st. induction sched as [|i sched IH]; intros st H; [assumption|].
  apply IH. now apply step_keeps_done.
Qed.

Lemma run_done (sched : list nat) (st : loop) (i : nat)
    (upload : UploadFile) :
  consistent st -> nth_error files i = Some upload -> In i sched ->
  done_at i upload (run service sched st).
Proof.
  revert st. induction sched as [|j sched IH]; intros st Hc Hu Hin;
    [contradiction|].
  cbn [run fold_left]. destruct Hin as [->|Hin].
  - apply (run_keeps_done sched). now apply step_done.
  - apply IH; try assumption. now apply step_consistent.
Qed.

End BatchFacts.

Lemma collect_total (tks : list task) :
  (forall i tk, nth_error tks i = Some tk -> exists r, tk = Done (Returned r)) ->
  exists rs,
    collect tks = Some rs /\
    List.length rs = List.length tks /\
    forall i r, nth_error tks i = Some (Done (Returned r)) ->
                nth_error rs i = Some r.
Proof.
  induction tks as [|tk tks IH]; intros H.
  - exists []. repeat split. intros [|i] r Hi; discriminate.
  - destruct (H 0 tk eq_refl) as [r0 ->].
    destruct IH as (rs & Hc & Hl & Hn).
    { intros i tk Hi. exact (H (S i) tk Hi). }
    exists (r0 :: rs). cbn [collect]. rewrite Hc. repeat split.
    + cbn. now rewrite Hl.
    + intros [|i] r Hi; cbn in *; [congruence|]. now apply Hn.
Qed.

(** X13. A batch of one to ten uploads, each carrying a filename, submitted
    with a configured credential: whatever the order in which the worker
    threads finish (every one of them finishing at some point), [analyze]
    returns an [AnalyzeResponse] with exactly as many results as uploads,
    and the [i]-th result is what [_analyze_file] returns for the [i]-th
    upload. *)
Theorem analyze_preserves_order (api_key : option string)
    (service : nat -> request -> result exn string)
    (files : list UploadFile) (sched : list nat) :
  1 <= List.length files <= 10 ->
  truthy api_key = true ->
  (forall upload, In upload files -> upload_filename upload <> None) ->
  (forall i, i < List.length files -> In i sched) ->
  exists rs,
    fst (analyze api_key service files sched)
    = Some (Returned {| results := rs |}) /\
    List.length rs = List.length files /\
    forall i upload, nth_error files i = Some upload ->
      exists r, nth_error rs i = Some r /\
                outcome (_analyze_file (service i) upload) = Returned r /\
                upload_filename upload = Some (filename r).
Proof.
  intros [Hlo Hhi] Hkey Hnamed Hfair. unfold analyze.
  destruct files as [|u0 us] eqn:Efiles; [cbn in Hlo; lia|].
  rewrite <- Efiles in *. clear u0 us Efiles.
  replace (10 <? List.length files)%nat with false
    by (symmetry; apply Nat.ltb_ge; lia).
  rewrite Hkey. cbn [negb fst].
  set (st := run service sched
               (start files {| slots := []; trace := []; failed := None |})).
  assert (Hc : consistent service files st)
    by (apply (run_consistent service files Hnamed),
              (start_consistent service files Hnamed)).
  assert (Hdone : forall i upload, nth_error files i = Some upload ->
                    done_at service i upload st).
  { intros i upload Hu. apply (run_done service files Hnamed).
    - apply (start_consistent service files Hnamed).
    - assumption.
    - apply Hfair, nth_error_Some. congruence. }
  destruct Hc as [Hlen _ Hf].
  destruct (collect_total (slots st)) as (rs & Hcol & Hl & Hn).
  { intros i tk Hi.
    assert (Hlt : i < List.length files).
    { rewrite <- Hlen. apply nth_error_Some. congruence. }
    destruct (nth_error files i) as [u|] eqn:Eu;
      [|apply nth_error_None in Eu; lia].
    destruct (final_Returned service files Hnamed i u Eu) as (r & Hr & _).
    exists r. specialize (Hdone i u Eu). unfold done_at in Hdone.
    rewrite Hr in Hdone. congruence. }
  exists rs. unfold gather. rewrite Hf, Hcol. cbn [option_map].
  repeat split; [congruence|].
  intros i upload Hu.
  destruct (final_Returned service files Hnamed i upload Hu) as (r & Hr & Hfn).
  exists r. repeat split; try assumption.
  apply Hn. specialize (Hdone i upload Hu). unfold done_at in Hdone.
  now rewrite Hr in Hdone.
Qed.

(** C3. [analyze] checks the batch before any work, in this order: no file,
    400; more than ten files, 400; no credential (unset or empty), 500.
    In each case nothing was read from an upload and the service was not
    called. *)
Theorem analyze_rejects (api_key : option string)
    (service : nat -> request -> result exn string)
    (files : list UploadFile) (sched : list nat) :
  (files = [] ->
   analyze api_key service files sched
   = (Some (Raised (HTTPException 400 "At least one image is required")),
      [])) /\
  (10 < List.length files ->
   analyze api_key service files sched
   = (Some (Raised (HTTPException 400 "Maximum of 10 images allowed")), [])) /\
  (1 <= List.length files <= 10 ->
   api_key = None \/ api_key = Some "" ->
   analyze api_key service files sched
   = (Some (Raised (HTTPException 500 "OPENAI_API_KEY not configured")), [])).
Proof.
  repeat split.
  - now intros ->.
  - intros H. unfold analyze. destruct files as [|u us]; [cbn in H; lia|].
    now apply Nat.ltb_lt in H as ->.
  - intros [Hlo Hhi] Hkey. unfold analyze.
    destruct files as [|u us]; [cbn in Hlo; lia|].
    replace (10 <? List.length (u :: us))%nat with false
      by (symmetry; apply Nat.ltb_ge; lia).
    now destruct Hkey as [-> | ->].
Qed.

(* --------------------------------------------------------------------- *)
(** *** What one image costs and how it can fail                         *)
(* --------------------------------------------------------------------- *)

(** The request [_call_model] sends for a data URL. *)
Definition request_for (image_data_url : string) : request :=
  {| model := "gpt-4.1";
     instruction := "Analyze this shopping screenshot.";
     image_url := image_data_url;
     detail := "high" |}.

(** The error result of the handler, for a filename and a message. *)
Definition error_image (f msg : string) : ImageResult :=
  {| filename := f; type := "error"; products := []; error := Some msg |}.

Lemma call_model_unfold (rc : request -> result exn string) (url : string) :
  _call_model rc url
  = (let* output_text := rc (request_for url) in json_loads output_text,
     [EvCall (request_for url)]).
Proof.
  unfold _call_model, create, bindM, lift, request_for.
  destruct (rc _) as [txt|e]; cbn [bind]; [|reflexivity].
  now destruct (json_loads txt).
Qed.

(** X1. An upload is read exactly once. An empty one never reaches the
    service; any other one costs exactly one request, sent after the read,
    for the model gpt-4.1 with the data URL of the upload at high detail --
    whatever the service answers and whatever becomes of the answer. *)
Theorem analyze_file_events (rc : request -> result exn string)
    (upload : UploadFile) :
  (upload_file upload = [] ->
   emitted (_analyze_file rc upload) = [EvRead upload]) /\
  (upload_file upload <> [] ->
   emitted (_analyze_file rc upload)
   = [EvRead upload; EvCall (request_for (data_url_of upload))]).
Proof.
  split; intros H; unfold _analyze_file, emitted, try_except, bindM.
  - rewrite (encode_image_empty upload H). unfold lift.
    now destruct (error_result upload _).
  - rewrite (encode_image_nonempty upload H), call_model_unfold.
    destruct (let* output_text := rc (request_for (data_url_of upload)) in
              json_loads output_text) as [raw|e]; unfold lift.
    + destruct (build_result upload raw) as [r|e]; cbn [snd app].
      * reflexivity.
      * now destruct (error_result upload e).
    + cbn [app]. now destruct (error_result upload e).
Qed.

(** X2. For an upload that has a filename, each way the body of the [try]
    can fail ends in an error result carrying the message of the exception:
    an empty buffer ("empty file"), an exception of the client, text that
    [json.loads] rejects, an answer from which no result can be built. *)
Theorem failures_become_results (rc : request -> result exn string)
    (upload : UploadFile) (f : string) :
  upload_filename upload = Some f ->
  (upload_file upload = [] ->
   outcome (_analyze_file rc upload) = Returned (error_image f "empty file"))
  /\
  (upload_file upload <> [] ->
   (forall exc, rc (request_for (data_url_of upload)) = Raised exc ->
      outcome (_analyze_file rc upload)
      = Returned (error_image f (str exc))) /\
   (forall txt exc,
      rc (request_for (data_url_of upload)) = Returned txt ->
      json_loads txt = Raised exc ->
      outcome (_analyze_file rc upload)
      = Returned (error_image f (str exc))) /\
   (forall txt raw exc,
      rc (request_for (data_url_of upload)) = Returned txt ->
      json_loads txt = Returned raw ->
      build_result upload raw = Raised exc ->
      outcome (_analyze_file rc upload)
      = Returned (error_image f (str exc)))).
Proof.
  intros Hf. split.
  - intros H.
    apply (analyze_file_isolates rc upload f (Exn ValueError "empty file") Hf).
    now rewrite (encode_image_empty upload H).
  - intros H. repeat split.
    + intros exc Hrc. apply (analyze_file_isolates rc upload f _ Hf).
      rewrite (encode_image_nonempty upload H). cbn [outcome fst bind].
      now rewrite call_model_unfold, Hrc.
    + intros txt exc Hrc Hj. apply (analyze_file_isolates rc upload f _ Hf).
      rewrite (encode_image_nonempty upload H). cbn [outcome fst bind].
      rewrite call_model_unfold, Hrc. cbn [fst bind]. now rewrite Hj.
    + intros txt raw exc Hrc Hj Hb.
      apply (analyze_file_isolates rc upload f _ Hf).
      rewrite (encode_image_nonempty upload H). cbn [outcome fst bind].
      rewrite call_model_unfold, Hrc. cbn [fst bind]. now rewrite Hj.
Qed.

Lemma handled_Raised (upload : UploadFile) (f : string) (exc : exn) :
  upload_filename upload = Some f ->
  handled upload (Raised exc) = Returned (error_image f (str exc)).
Proof. intros Hf. cbn [handled]. now apply error_result_named. Qed.

(** Only a dict has [get]. *)
Definition is_dict (v : json) : bool :=
  match v with
  | JDict _ => true
  | _ => false
  end.

(** X3. When the text of the service parses to something that is not an
    object (a list, a string, a number, [true], [null]), [raw.get] fails
    and the image gets an error result with the interpreter's message;
    nothing escapes. *)
Theorem non_object_answer (rc : request -> result exn string)
    (upload : UploadFile) (f : string) (raw : json) :
  upload_filename upload = Some f ->
  upload_file upload <> [] ->
  outcome (_call_model rc (data_url_of upload)) = Returned raw ->
  is_dict raw = false ->
  outcome (_analyze_file rc upload)
  = Returned (error_image f (message_of (NoAttribute raw "get"))).
Proof.
  intros Hf Hne Hraw Hd. rewrite (analyze_file_extracted rc upload _ Hne Hraw).
  unfold build_result.
  destruct raw; try discriminate; cbn [py_get fail bind];
    exact (handled_Raised upload f _ Hf).
Qed.

(** Values that no [str] field takes, in either version of pydantic. *)
Definition textless (v : json) : bool :=
  match v with
  | JNull | JList _ | JDict _ => true
  | _ => false
  end.

Lemma validate_str_textless (v : json) :
  textless v = true -> validate_str v = None.
Proof. destruct v; try discriminate; reflexivity. Qed.

(** X4. The default "unknown" only stands in for a missing [type] key. A
    [type] that is present but [null] (or a list, or an object) is handed to
    [ImageResult] as it is and rejected: the image gets an error result. *)
Theorem null_type_not_defaulted (rc : request -> result exn string)
    (upload : UploadFile) (f : string) (items : list (string * json))
    (ty : json) :
  upload_filename upload = Some f ->
  upload_file upload <> [] ->
  outcome (_call_model rc (data_url_of upload)) = Returned (JDict items) ->
  dict_get "type" items = Some ty ->
  textless ty = true ->
  exists msg,
    outcome (_analyze_file rc upload) = Returned (error_image f msg).
Proof.
  intros Hf Hne Hraw Hty Ht.
  rewrite (analyze_file_extracted rc upload _ Hne Hraw).
  unfold build_result. cbn [py_get bind]. rewrite Hty.
  destruct (products_from (JDict items)) as [ps|e]; cbn [bind].
  - unfold ImageResult_init. rewrite Hf, (validate_str_textless ty Ht).
    unfold fail. rewrite (handled_Raised upload f _ Hf). now eexists.
  - rewrite (handled_Raised upload f _ Hf). now eexists.
Qed.

(** What a [for] loop can run over. *)
Definition iterable (v : json) : bool :=
  match v with
  | JList _ | JDict _ | JStr _ => true
  | _ => false
  end.

(** X5. [extracted] is only iterated, never checked to be a list. An empty
    string or an empty object passes for "no product"; [null], a number or
    a boolean cannot be iterated; a non-empty string or object is iterated
    and its first character or key, not being a mapping, cannot be unpacked
    into [ProductOut]. All but the first case give an error result. *)
Theorem extracted_not_a_list (rc : request -> result exn string)
    (upload : UploadFile) (f : string) (items : list (string * json))
    (v : json) :
  upload_filename upload = Some f ->
  upload_file upload <> [] ->
  outcome (_call_model rc (data_url_of upload)) = Returned (JDict items) ->
  dict_get "extracted" items = Some v ->
  (v = JStr "" \/ v = JDict [] ->
   forall t, dict_get "type" items = Some (JStr t) ->
   outcome (_analyze_file rc upload)
   = Returned {| filename := f; type := t; products := [];
                 error := None |}) /\
  (iterable v = false ->
   outcome (_analyze_file rc upload)
   = Returned (error_image f (message_of (NotIterable v)))) /\
  (forall c s, v = JStr (String c s) ->
   outcome (_analyze_file rc upload)
   = Returned (error_image f
                 (message_of (NotAMapping (JStr (String c EmptyString)))))) /\
  (forall k x rest, v = JDict ((k, x) :: rest) ->
   outcome (_analyze_file rc upload)
   = Returned (error_image f (message_of (NotAMapping (JStr k))))).
Proof.
  intros Hf Hne Hraw Hv.
  rewrite (analyze_file_extracted rc upload _ Hne Hraw).
  unfold build_result, products_from. cbn [py_get bind]. rewrite Hv.
  repeat split.
  - intros [-> | ->] t Ht; rewrite Ht; cbn; unfold ImageResult_init;
      now rewrite Hf.
  - intros Hi. destruct v; try discriminate; cbn [iterate fail bind];
      exact (handled_Raised upload f _ Hf).
  - intros c s ->. cbn [iterate list_ascii_of_string map products_of
                        product_of fail bind].
    exact (handled_Raised upload f _ Hf).
  - intros k x rest ->. cbn [iterate map fst products_of product_of fail bind].
    exact (handled_Raised upload f _ Hf).
Qed.

Lemma products_of_Returned (items : list json) (ps : list ProductOut) :
  products_of items = Returned ps ->
  List.length ps = List.length items /\
  forall i item, nth_error items i = Some item ->
    exists p, nth_error ps i = Some p /\ product_of item = Returned p.
Proof.
  revert ps. induction items as [|x items IH]; intros ps H.
  - cbn in H. injection H as <-. split; [reflexivity|].
    intros [|i] item Hi; discriminate.
  - cbn [products_of] in H.
    destruct (product_of x) as [p|e] eqn:Ex; [|discriminate]. cbn [bind] in H.
    destruct (products_of items) as [qs|e]; [|discriminate]. cbn [bind] in H.
    injection H as <-. destruct (IH qs eq_refl) as [Hl Hn]. split.
    + cbn. now rewrite Hl.
    + intros [|i] item Hi; cbn in Hi.
      * injection Hi as <-. now exists p.
      * now apply Hn.
Qed.

Lemma products_of_Raised (items : list json) (item : json) (exc : exn) :
  In item items -> product_of item = Raised exc ->
  exists exc', products_of items = Raised exc'.
Proof.
  induction items as [|x items IH]; intros Hin Hr; [contradiction|].
  cbn [products_of]. destruct Hin as [->|Hin].
  - rewrite Hr. now eexists.
  - destruct (product_of x) as [p|e]; [|now eexists]. cbn [bind].
    destruct (IH Hin Hr) as [e' ->]. now eexists.
Qed.

Lemma spoiled_item (rc : request -> result exn string)
    (upload : UploadFile) (f : string) (kvs : list (string * json))
    (items : list json) (item : json) (exc : exn) :
  upload_filename upload = Some f ->
  upload_file upload <> [] ->
  outcome (_call_model rc (data_url_of upload)) = Returned (JDict kvs) ->
  dict_get "extracted" kvs = Some (JList items) ->
  In item items -> product_of item = Raised exc ->
  exists msg,
    outcome (_analyze_file rc upload) = Returned (error_image f msg).
Proof.
  intros Hf Hne Hraw Hv Hin Hr.
  rewrite (analyze_file_extracted rc upload _ Hne Hraw).
  unfold build_result, products_from. cbn [py_get bind]. rewrite Hv.
  cbn [iterate bind]. destruct (products_of_Raised items item exc Hin Hr)
    as [e' ->].
  cbn [bind]. rewrite (handled_Raised upload f _ Hf). now eexists.
Qed.

(** X6. Products are all or nothing. When [extracted] is a list and the
    image is not an error, there is exactly one product per extracted item,
    in the order of the items, each the [ProductOut] of its item; as soon as
    one item is rejected, the image gets an error result, which has no
    product at all. *)
Theorem products_all_or_nothing (rc : request -> result exn string)
    (upload : UploadFile) (f : string) (kvs : list (string * json))
    (items : list json) :
  upload_filename upload = Some f ->
  upload_file upload <> [] ->
  outcome (_call_model rc (data_url_of upload)) = Returned (JDict kvs) ->
  dict_get "extracted" kvs = Some (JList items) ->
  (forall r, outcome (_analyze_file rc upload) = Returned r ->
             error r = None ->
     List.length (products r) = List.length items /\
     forall i item, nth_error items i = Some item ->
       exists p, nth_error (products r) i = Some p /\
                 product_of item = Returned p) /\
  (forall item exc, In item items -> product_of item = Raised exc ->
     exists msg,
       outcome (_analyze_file rc upload) = Returned (error_image f msg)).
Proof.
  intros Hf Hne Hraw Hv. split.
  - rewrite (analyze_file_extracted rc upload _ Hne Hraw).
    intros r Hr Herr.
    destruct (build_result upload (JDict kvs)) as [r'|e] eqn:Eb;
      cbn [handled] in Hr.
    + injection Hr as ->.
      apply build_result_Returned in Eb as (_ & _ & Hp & _).
      unfold products_from in Hp. cbn [py_get bind] in Hp. rewrite Hv in Hp.
      cbn [iterate bind] in Hp. now apply products_of_Returned.
    + apply error_result_Returned in Hr as (_ & _ & _ & He). congruence.
  - intros item exc. now apply (spoiled_item rc upload f kvs items).
Qed.

(** X7. [product_name] is required in both versions of pydantic: one
    extracted item in which it is missing or [null] makes the whole image an
    error result. *)
Theorem product_name_required (rc : request -> result exn string)
    (upload : UploadFile) (f : string) (kvs : list (string * json))
    (items : list json) (kwargs : list (string * json)) :
  upload_filename upload = Some f ->
  upload_file upload <> [] ->
  outcome (_call_model rc (data_url_of upload)) = Returned (JDict kvs) ->
  dict_get "extracted" kvs = Some (JList items) ->
  In (JDict kwargs) items ->
  dict_get "product_name" kwargs = None \/
  dict_get "product_name" kwargs = Some JNull ->
  exists msg,
    outcome (_analyze_file rc upload) = Returned (error_image f msg).
Proof.
  intros Hf Hne Hraw Hv Hin Hn.
  assert (Hr : exists exc, product_of (JDict kwargs) = Raised exc).
  { cbn [product_of]. unfold ProductOut_init, fail.
    destruct Hn as [-> | ->]; cbn [required_str validate_str];
      destruct (optional_str (dict_get "brand" kwargs));
      now eexists. }
  destruct Hr as [exc Hr].
  now apply (spoiled_item rc upload f kvs items (JDict kwargs) exc).
Qed.

(* --------------------------------------------------------------------- *)
(** *** [JSON_SCHEMA] and the pydantic models                            *)
(* --------------------------------------------------------------------- *)

(** The names JSON Schema gives to the primitive types. *)
Inductive json_type : Type := TString | TNull | TNumber | TInteger | TBoolean.

(** The fragment of JSON Schema [JSON_SCHEMA] is written in: a [type] that
    is a name or a list of names, an array with its [items], an object with
    its [properties], [required] and [additionalProperties]. *)
#[local] Unset Elimination Schemes.
Inductive schema : Type :=
| Prim (types : list json_type)
| Array (items : schema)
| Object (properties : list (string * schema)) (required : list string)
         (additionalProperties : bool).
#[local] Set Elimination Schemes.

(** The [format] sent with every request. *)
Record text_format : Type := {
  format_type : string;
  format_name : string;
  format_schema : schema;
  strict : bool
}.

Definition item_schema : schema :=
  Object [("brand", Prim [TString; TNull]);
          ("product_name", Prim [TString]);
          ("price", Prim [TString; TNull])]
         ["brand"; "product_name"; "price"]
         false.

Definition JSON_SCHEMA : text_format :=
  {| format_type := "json_schema";
     format_name := "shopping_extraction";
     format_schema :=
       Object [("type", Prim [TString]);
               ("extracted", Array item_schema)]
              ["type"; "extracted"]
              false;
     strict := true |}.

Definition has_type (t : json_type) (v : json) : bool :=
  match t, v with
  | TString, JStr _ => true
  | TNull, JNull => true
  | TNumber, JInt _ => true
  | TNumber, JFloat _ => true
  | TInteger, JInt _ => true
  | TBoolean, JBool _ => true
  | _, _ => false
  end.

Fixpoint property (k : string) (props : list (string * schema))
  : option schema :=
  match props with
  | [] => None
  | (k', s) :: rest => if String.eqb k k' then Some s else property k rest
  end.

Definition present (kvs : list (string * json)) (k : string) : bool :=
  match dict_get k kvs with
  | Some _ => true
  | None => false
  end.

(** Validation of a value against a schema. *)
Fixpoint conforms (s : schema) (v : json) {struct v} : bool :=
  match s, v with
  | Prim types, _ => existsb (fun t => has_type t v) types
  | Array items, JList l => forallb (conforms items) l
  | Object props req extra, JDict kvs =>
      forallb (fun kv => let '(k, x) := kv in
                         match property k props with
                         | Some s' => conforms s' x
                         | None => extra
                         end) kvs
      && forallb (present kvs) req
  | _, _ => false
  end.

(** A field of a product against the value it was read from. *)
Definition nullable (kw : option json) (field : option string) : Prop :=
  match kw, field with
  | Some JNull, None => True
  | Some (JStr s), Some s' => s = s'
  | _, _ => False
  end.

(** A product that says what its extracted item says. *)
Definition mirrors (item : json) (p : ProductOut) : Prop :=
  exists kwargs n,
    item = JDict kwargs /\
    dict_get "product_name" kwargs = Some (JStr n) /\
    product_name p = n /\
    nullable (dict_get "brand" kwargs) (brand p) /\
    nullable (dict_get "price" kwargs) (price p).

Lemma dict_get_In (k : string) (kvs : list (string * json)) (v : json) :
  dict_get k kvs = Some v -> In (k, v) kvs.
Proof.
  induction kvs as [|[k' x] kvs IH]; [discriminate|]. cbn [dict_get].
  destruct (String.eqb k k') eqn:E.
  - intros [= ->]. apply String.eqb_eq in E. subst. now left.
  - intros H. right. now apply IH.
Qed.

Lemma conforms_Object (props : list (string * schema)) (req : list string)
    (extra : bool) (v : json) :
  conforms (Object props req extra) v = true ->
  exists kvs,
    v = JDict kvs /\
    (forall k, In k req -> exists x, dict_get k kvs = Some x) /\
    (forall k x s', dict_get k kvs = Some x -> property k props = Some s' ->
                    conforms s' x = true).
Proof.
  destruct v as [| | | | | |kvs]; try discriminate. cbn [conforms].
  intros H. apply andb_true_iff in H as [Hp Hr]. exists kvs.
  split; [reflexivity|]. split.
  - intros k Hk. pose proof (proj1 (forallb_forall _ _) Hr k Hk) as Hpk.
    unfold present in Hpk. destruct (dict_get k kvs) as [x|]; [|discriminate].
    now exists x.
  - intros k x s' Hg Hs. apply dict_get_In in Hg.
    pose proof (proj1 (forallb_forall _ _) Hp (k, x) Hg) as Hkx.
    cbn in Hkx. now rewrite Hs in Hkx.
Qed.

Lemma conforms_string (v : json) :
  conforms (Prim [TString]) v = true -> exists s, v = JStr s.
Proof. destruct v; try discriminate. now eexists. Qed.

Lemma conforms_string_or_null (v : json) :
  conforms (Prim [TString; TNull]) v = true ->
  v = JNull \/ exists s, v = JStr s.
Proof. destruct v; try discriminate; [now left | right; now eexists]. Qed.

Lemma optional_str_nullable (v : json) :
  conforms (Prim [TString; TNull]) v = true ->
  exists field, optional_str (Some v) = Some field /\ nullable (Some v) field.
Proof.
  intros H. destruct (conforms_string_or_null v H) as [-> | [s ->]].
  - now exists None.
  - now exists (Some s).
Qed.

(** An item the schema allows is a product for pydantic. *)
Lemma item_accepted (item : json) :
  conforms item_schema item = true ->
  exists p, product_of item = Returned p /\ mirrors item p.
Proof.
  intros H. apply conforms_Object in H as (kwargs & -> & Hreq & Hprops).
  destruct (Hreq "brand") as [b Hb]; [cbn; auto|].
  destruct (Hreq "product_name") as [n Hn]; [cbn; auto|].
  destruct (Hreq "price") as [pr Hpr]; [cbn; auto|].
  pose proof (Hprops "brand" b _ Hb eq_refl) as Cb.
  pose proof (Hprops "product_name" n _ Hn eq_refl) as Cn.
  pose proof (Hprops "price" pr _ Hpr eq_refl) as Cp.
  destruct (conforms_string n Cn) as [name ->].
  destruct (optional_str_nullable b Cb) as (fb & Eb & Nb).
  destruct (optional_str_nullable pr Cp) as (fp & Ep & Np).
  exists {| brand := fb; product_name := name; price := fp |}.
  split.
  - cbn [product_of]. unfold ProductOut_init. rewrite Hb, Hn, Hpr, Eb, Ep.
    reflexivity.
  - exists kwargs, name. rewrite Hb, Hpr. now repeat split.
Qed.

Lemma products_of_total (items : list json) :
  (forall item, In item items -> exists p, product_of item = Returned p) ->
  exists ps, products_of items = Returned ps.
Proof.
  induction items as [|x items IH]; intros H; [now exists []|].
  destruct (H x) as [p Hp]; [now left|].
  destruct IH as [ps Hps]; [intros item Hi; apply H; now right|].
  exists (p :: ps). cbn [products_of]. now rewrite Hp, Hps.
Qed.

(** X8. Whatever [JSON_SCHEMA] allows, the pydantic models accept, in
    either version: when the parsed answer conforms to the schema, the image
    is not an error; its type is the [type] of the answer and it has one
    product per extracted item, in order, with the item's product name and
    with the item's brand and price, [null] becoming [None]. *)
Theorem schema_conforming_accepted (rc : request -> result exn string)
    (upload : UploadFile) (f : string) (raw : json) :
  upload_filename upload = Some f ->
  upload_file upload <> [] ->
  outcome (_call_model rc (data_url_of upload)) = Returned raw ->
  conforms (format_schema JSON_SCHEMA) raw = true ->
  exists kvs t items ps,
    raw = JDict kvs /\
    dict_get "type" kvs = Some (JStr t) /\
    dict_get "extracted" kvs = Some (JList items) /\
    outcome (_analyze_file rc upload)
    = Returned {| filename := f; type := t; products := ps;
                  error := None |} /\
    List.length ps = List.length items /\
    forall i item, nth_error items i = Some item ->
      exists p, nth_error ps i = Some p /\ mirrors item p.
Proof.
  intros Hf Hne Hraw Hc. cbn [format_schema JSON_SCHEMA] in Hc.
  apply conforms_Object in Hc as (kvs & -> & Hreq & Hprops).
  destruct (Hreq "type") as [ty Hty]; [cbn; auto|].
  destruct (Hreq "extracted") as [ex Hex]; [cbn; auto|].
  pose proof (Hprops "type" ty _ Hty eq_refl) as Ct.
  pose proof (Hprops "extracted" ex _ Hex eq_refl) as Ce.
  destruct (conforms_string ty Ct) as [t ->].
  destruct ex as [| | | | |items|]; try discriminate. cbn [conforms] in Ce.
  assert (Hitems : forall item, In item items ->
                     exists p, product_of item = Returned p /\ mirrors item p).
  { intros item Hi. apply item_accepted.
    now apply (proj1 (forallb_forall _ _) Ce). }
  destruct (products_of_total items) as [ps Hps].
  { intros item Hi. destruct (Hitems item Hi) as (p & Hp & _). now exists p. }
  exists kvs, t, items, ps. repeat split; try assumption.
  - rewrite (analyze_file_extracted rc upload _ Hne Hraw).
    unfold build_result, products_from. cbn [py_get bind].
    rewrite Hty, Hex. cbn [iterate bind]. rewrite Hps. cbn [bind].
    unfold ImageResult_init. now rewrite Hf.
  - now apply products_of_Returned.
  - intros i item Hi.
    destruct (proj2 (products_of_Returned items ps Hps) i item Hi)
      as (p & Hn & Hp).
    exists p. split; [assumption|].
    destruct (Hitems item (nth_error_In _ _ Hi)) as (p' & Hp' & Hm).
    congruence.
Qed.

(* --------------------------------------------------------------------- *)
(** *** The data URL determines the image                                *)
(* --------------------------------------------------------------------- *)

Lemma data_url_payload (upload : UploadFile) :
  after_last "base64," (data_url_of upload)
  = Some (string_of_list_byte (Base64.b64encode (upload_file upload))).
Proof.
  replace (data_url_of upload)
    with (("data:" ++ mime_type_of upload ++ ";") ++ PyFacts.marker
          ++ string_of_list_byte
               (Base64.b64encode (upload_file upload)))%string.
  - apply PyFacts.after_last_marker, b64_text_no_comma,
      Base64.b64encode_chars.
  - unfold data_url_of, PyFacts.marker. cbn.
    now rewrite !PyFacts.append_assoc.
Qed.

Lemma encode_image_Returned (upload : UploadFile) (url : string) :
  outcome (_encode_image upload) = Returned url ->
  upload_file upload <> [] /\ url = data_url_of upload.
Proof.
  intros H.
  assert (Hne : upload_file upload <> []).
  { intros E. rewrite (encode_image_empty upload E) in H. discriminate. }
  split; [exact Hne|].
  rewrite (encode_image_nonempty upload Hne) in H. cbn [outcome fst] in H.
  congruence.
Qed.

(** X9. Two uploads for which [_encode_image] returns the same data URL
    hold the same bytes, whatever their filenames are: the URL that is sent
    to the service determines the image. *)
Theorem encode_image_injective (upload1 upload2 : UploadFile) (url : string) :
  outcome (_encode_image upload1) = Returned url ->
  outcome (_encode_image upload2) = Returned url ->
  upload_file upload1 = upload_file upload2.
Proof.
  intros H1 H2.
  apply encode_image_Returned in H1 as [_ H1].
  apply encode_image_Returned in H2 as [_ H2].
  pose proof (data_url_payload upload1) as P1.
  pose proof (data_url_payload upload2) as P2.
  rewrite <- H1 in P1. rewrite <- H2, P1 in P2. injection P2 as P.
  apply (f_equal list_byte_of_string) in P.
  rewrite !list_byte_of_string_of_list_byte in P.
  apply (f_equal Base64.b64decode) in P.
  rewrite !Base64.b64decode_b64encode in P. congruence.
Qed.

(* --------------------------------------------------------------------- *)
(** *** The batch: what it costs, when it raises, when it waits          *)
(* --------------------------------------------------------------------- *)

(** The uploads read and the requests sent, in the order of the trace. *)
Definition reads_of (t : list event) : list UploadFile :=
  flat_map (fun ev => match ev with
                      | EvRead upload => [upload]
                      | EvCall _ => []
                      end) t.

Definition calls_of (t : list event) : list request :=
  flat_map (fun ev => match ev with
                      | EvRead _ => []
                      | EvCall req => [req]
                      end) t.

Definition has_data (upload : UploadFile) : bool :=
  match upload_file upload with
  | [] => false
  | _ :: _ => true
  end.

Definition is_parked (tk : task) : bool :=
  match tk with
  | Suspended _ _ => true
  | Done _ => false
  end.

(** The number of tasks waiting for their worker thread. *)
Definition parked (tks : list task) : nat :=
  List.length (filter is_parked tks).

Lemma spawn_shape (upload : UploadFile) :
  spawn upload
  = (if has_data upload then Suspended upload (data_url_of upload)
     else Done (error_result upload (Exn ValueError "empty file")),
     [EvRead upload]).
Proof.
  unfold spawn, has_data. destruct (upload_file upload) as [|b bs] eqn:E.
  - now rewrite (encode_image_empty upload E).
  - rewrite (encode_image_nonempty upload); [reflexivity|congruence].
Qed.

Lemma resume_events (rc : request -> result exn string)
    (upload : UploadFile) (url : string) :
  snd (resume rc (Suspended upload url)) = [EvCall (request_for url)].
Proof. cbn [resume]. now rewrite call_model_unfold. Qed.

Lemma error_result_cases (upload : UploadFile) (exc : exn) :
  (exists r, error_result upload exc = Returned r) \/
  (exists msg, error_result upload exc = Raised (Exn ValidationError msg)).
Proof.
  unfold error_result, ImageResult_init, fail.
  destruct (upload_filename upload); cbn; [left|right]; now eexists.
Qed.

Lemma handled_cases (upload : UploadFile) (r : result exn ImageResult) :
  (exists x, handled upload r = Returned x) \/
  (exists msg, handled upload r = Raised (Exn ValidationError msg)).
Proof.
  destruct r as [x|e]; cbn [handled]; [left; now exists x|].
  apply error_result_cases.
Qed.

Lemma set_nth_same {A : Type} (i : nat) (x : A) (l : list A) :
  nth_error l i = Some x -> set_nth i x l = l.
Proof.
  revert i. induction l as [|y l IH]; intros [|i] H; cbn in *;
    try discriminate.
  - now injection H as ->.
  - f_equal. now apply IH.
Qed.

Lemma Forall_set_nth {A : Type} (P : A -> Prop) (i : nat) (x : A)
    (l : list A) :
  Forall P l -> P x -> Forall P (set_nth i x l).
Proof.
  intros Hl Hx. revert i.
  induction Hl as [|y l Hy Hl IH]; intros [|i]; cbn; auto.
Qed.

Lemma parked_set_nth (i : nat) (upload : UploadFile) (url : string)
    (r : result exn ImageResult) (tks : list task) :
  nth_error tks i = Some (Suspended upload url) ->
  S (parked (set_nth i (Done r) tks)) = parked tks.
Proof.
  unfold parked. revert i.
  induction tks as [|tk tks IH]; intros [|i] H; cbn in H; try discriminate.
  - injection H as ->. reflexivity.
  - cbn [set_nth filter]. destruct (is_parked tk); cbn [List.length];
      now rewrite <- (IH i H).
Qed.

Lemma parked_none (tks : list task) :
  (forall i tk, nth_error tks i = Some tk -> is_parked tk = false) ->
  parked tks = 0.
Proof.
  unfold parked. induction tks as [|tk tks IH]; intros H; [reflexivity|].
  cbn [filter]. rewrite (H 0 tk eq_refl). apply IH.
  intros i tk' Hi. exact (H (S i) tk' Hi).
Qed.

Lemma collect_parked (tks : list task) (i : nat) (tk : task) :
  nth_error tks i = Some tk -> is_parked tk = true -> collect tks = None.
Proof.
  revert i. induction tks as [|x tks IH]; intros [|i] H Hp; cbn in H;
    try discriminate.
  - injection H as ->. now destruct tk.
  - cbn [collect]. destruct x as [u url|[r|e]]; try reflexivity.
    now rewrite (IH i H Hp).
Qed.

Section BatchMore.

Variable api_key : option string.
Variable service : nat -> request -> result exn string.
Variable files : list UploadFile.

(** Slot [i] holds the task of the [i]-th file, parked or finished with its
    own outcome. *)
Record aligned (st : loop) : Prop := {
  aligned_length : List.length (slots st) = List.length files;
  aligned_tasks :
    forall i upload, nth_error files i = Some upload ->
      nth_error (slots st) i = Some (fst (spawn upload)) \/
      done_at service i upload st
}.

(** [failed] records a task that ended with an exception if there is one,
    and only pydantic's. *)
Record sound (st : loop) : Prop := {
  sound_none :
    failed st = None ->
    Forall (fun tk => forall exc, tk <> Done (Raised exc)) (slots st);
  sound_some :
    forall exc, failed st = Some exc ->
                exists msg, exc = Exn ValidationError msg
}.

(** The trace accounts for every read and every request. *)
Record accounted (st : loop) : Prop := {
  all_read : reads_of (trace st) = files;
  calls_count :
    List.length (calls_of (trace st)) + parked (slots st)
    = List.length (filter has_data files);
  calls_known :
    Forall (fun req => exists upload,
                In upload files /\ has_data upload = true /\
                req = request_for (data_url_of upload))
           (calls_of (trace st))
}.

Definition fresh : loop := {| slots := []; trace := []; failed := None |}.

Lemma trace_start (us : list UploadFile) (st : loop) :
  trace (start us st) = trace st ++ map EvRead us.
Proof.
  revert st. induction us as [|u us IH]; intros st; cbn [start map].
  - now rewrite app_nil_r.
  - rewrite spawn_shape, IH. cbn [trace]. now rewrite <- app_assoc.
Qed.

Lemma reads_of_map (us : list UploadFile) : reads_of (map EvRead us) = us.
Proof.
  unfold reads_of. induction us as [|u us IH]; [reflexivity|].
  cbn [map flat_map app]. now rewrite IH.
Qed.

Lemma calls_of_map (us : list UploadFile) : calls_of (map EvRead us) = [].
Proof.
  unfold calls_of. induction us as [|u us IH]; [reflexivity|].
  cbn [map flat_map app]. exact IH.
Qed.

Lemma parked_spawned (us : list UploadFile) :
  parked (map (fun u => fst (spawn u)) us)
  = List.length (filter has_data us).
Proof.
  unfold parked. induction us as [|u us IH]; [reflexivity|].
  cbn [map filter]. rewrite spawn_shape. cbn [fst].
  destruct (has_data u); cbn [is_parked List.length]; now rewrite IH.
Qed.

Lemma start_aligned : aligned (start files fresh).
Proof.
  constructor.
  - rewrite slots_start. cbn. now rewrite length_map.
  - intros i u H. left. rewrite slots_start. cbn.
    now rewrite nth_error_map, H.
Qed.

Lemma start_accounted : accounted (start files fresh).
Proof.
  constructor; rewrite ?trace_start, ?slots_start; cbn [trace slots fresh app].
  - apply reads_of_map.
  - rewrite calls_of_map. cbn. apply parked_spawned.
  - rewrite calls_of_map. constructor.
Qed.

Lemma sound_start (us : list UploadFile) (st : loop) :
  sound st -> sound (start us st).
Proof.
  revert st. induction us as [|u us IH]; intros st [Hn Hs]; cbn [start];
    [now constructor|].
  rewrite spawn_shape. apply IH. constructor; cbn [slots failed].
  - intros Hf. destruct (failed st) as [e|] eqn:Ef; [discriminate|].
    apply Forall_app. split; [now apply Hn|]. constructor; [|constructor].
    intros exc. destruct (has_data u); [discriminate|].
    cbn [note] in Hf.
    destruct (error_result u (Exn ValueError "empty file")) as [r|e];
      [discriminate|discriminate].
  - intros exc Hf. destruct (failed st) as [e|] eqn:Ef.
    + cbn [note] in Hf. injection Hf as <-. now apply Hs.
    + destruct (has_data u); [discriminate|]. cbn [note] in Hf.
      destruct (error_result_cases u (Exn ValueError "empty file"))
        as [[r Er]|[msg Er]]; rewrite Er in Hf; [discriminate|].
      injection Hf as <-. now exists msg.
Qed.

(** What a step does to a parked task of the batch. *)
Lemma step_parked (st : loop) (i : nat) (u : UploadFile) (url : string) :
  aligned st -> nth_error (slots st) i = Some (Suspended u url) ->
  exists u0,
    nth_error files i = Some u0 /\ has_data u0 = true /\
    u = u0 /\ url = data_url_of u0 /\
    step service st i
    = {| slots := set_nth i (Done (final service i u0)) (slots st);
         trace := trace st ++ [EvCall (request_for url)];
         failed := note (failed st) (Done (final service i u0)) |}.
Proof.
  intros [Hlen Htk] E.
  assert (Hi : i < List.length files).
  { rewrite <- Hlen. apply nth_error_Some. congruence. }
  destruct (nth_error files i) as [u0|] eqn:Eu;
    [|apply nth_error_None in Eu; lia].
  assert (Hsp : fst (spawn u0) = Suspended u url).
  { destruct (Htk i u0 Eu) as [H|H]; [congruence|].
    unfold done_at in H. congruence. }
  pose proof (spawn_resume (service i) u0) as Hres. rewrite Hsp in Hres.
  rewrite spawn_shape in Hsp. cbn [fst] in Hsp.
  destruct (has_data u0) eqn:Hd; [|discriminate]. injection Hsp as <- <-.
  exists u0. do 4 (split; [reflexivity || assumption|]).
  unfold step. rewrite E.
  pose proof (resume_events (service i) u0 (data_url_of u0)) as Hev.
  destruct (resume (service i) (Suspended u0 (data_url_of u0))) as [tk t].
  cbn [fst snd] in *. now subst.
Qed.

Lemma step_idle (st : loop) (i : nat) :
  (forall u url, nth_error (slots st) i <> Some (Suspended u url)) ->
  step service st i = st.
Proof.
  intros H. unfold step.
  destruct (nth_error (slots st) i) as [[u url|r]|] eqn:E; try reflexivity.
  now destruct (H u url).
Qed.

Lemma step_cases (st : loop) (i : nat) :
  aligned st ->
  step service st i = st \/
  exists u0 url,
    nth_error (slots st) i = Some (Suspended u0 url) /\
    nth_error files i = Some u0 /\ has_data u0 = true /\
    url = data_url_of u0 /\
    step service st i
    = {| slots := set_nth i (Done (final service i u0)) (slots st);
         trace := trace st ++ [EvCall (request_for url)];
         failed := note (failed st) (Done (final service i u0)) |}.
Proof.
  intros Ha.
  destruct (nth_error (slots st) i) as [[u url|r]|] eqn:E.
  - right. destruct (step_parked st i u url Ha E)
      as (u0 & Hu & Hd & -> & -> & Hs).
    now exists u0, (data_url_of u0).
  - left. apply step_idle. congruence.
  - left. apply step_idle. congruence.
Qed.

Lemma step_aligned (st : loop) (i : nat) :
  aligned st -> aligned (step service st i).
Proof.
  intros Ha. destruct (step_cases st i Ha)
    as [-> | (u0 & url & E & Hu & Hd & -> & ->)]; [assumption|].
  destruct Ha as [Hlen Htk].
  assert (Hi : i < List.length (slots st)).
  { apply nth_error_Some. congruence. }
  constructor; cbn [slots].
  - now rewrite length_set_nth.
  - intros j u' Hj. unfold done_at. cbn [slots].
    destruct (Nat.eq_dec i j) as [<-|Hne].
    + right. rewrite nth_error_set_nth_eq by assumption.
      replace u' with u0 by congruence. reflexivity.
    + rewrite nth_error_set_nth_ne by assumption. now apply Htk.
Qed.

Lemma step_sound (st : loop) (i : nat) :
  aligned st -> sound st -> sound (step service st i).
Proof.
  intros Ha Hsd. destruct (step_cases st i Ha)
    as [-> | (u0 & url & E & Hu & Hd & -> & ->)]; [assumption|].
  destruct Hsd as [Hn Hs].
  assert (Hfin : (exists r, final service i u0 = Returned r) \/
                 (exists msg, final service i u0
                              = Raised (Exn ValidationError msg))).
  { unfold final. rewrite outcome_analyze_file. apply handled_cases. }
  constructor; cbn [slots failed].
  - intros Hf. destruct (failed st) as [e|] eqn:Ef; [discriminate|].
    apply Forall_set_nth; [now apply Hn|].
    intros exc. destruct Hfin as [[r ->]|[msg Hm]]; [discriminate|].
    rewrite Hm in Hf. discriminate.
  - intros exc Hf. destruct (failed st) as [e|] eqn:Ef.
    + cbn [note] in Hf. injection Hf as <-. now apply Hs.
    + destruct Hfin as [[r Hr]|[msg Hm]].
      * rewrite Hr in Hf. discriminate.
      * rewrite Hm in Hf. injection Hf as <-. now exists msg.
Qed.

Lemma calls_of_app (t1 t2 : list event) :
  calls_of (t1 ++ t2) = calls_of t1 ++ calls_of t2.
Proof. unfold calls_of. apply flat_map_app. Qed.

Lemma reads_of_app (t1 t2 : list event) :
  reads_of (t1 ++ t2) = reads_of t1 ++ reads_of t2.
Proof. unfold reads_of. apply flat_map_app. Qed.

Lemma step_accounted (st : loop) (i : nat) :
  aligned st -> accounted st -> accounted (step service st i).
Proof.
  intros Ha Hacc. destruct (step_cases st i Ha)
    as [-> | (u0 & url & E & Hu & Hd & -> & ->)]; [assumption|].
  destruct Hacc as [Hr Hc Hk]. constructor; cbn [slots trace].
  - rewrite reads_of_app. cbn. now rewrite app_nil_r.
  - rewrite calls_of_app, length_app. cbn [calls_of flat_map app List.length].
    rewrite <- Hc. rewrite <- (parked_set_nth i _ _ (final service i u0) _ E).
    lia.
  - rewrite calls_of_app. apply Forall_app. split; [assumption|].
    cbn. constructor; [|constructor].
    exists u0. repeat split; try assumption. now apply (nth_error_In _ i).
Qed.

Lemma step_done_aligned (st : loop) (i : nat) (upload : UploadFile) :
  aligned st -> nth_error files i = Some upload ->
  done_at service i upload (step service st i).
Proof.
  intros Ha Hu. pose proof (aligned_tasks st Ha i upload Hu) as [H|H].
  - destruct (fst (spawn upload)) as [u url|r] eqn:Hsp.
    + destruct (step_parked st i u url Ha H)
        as (u0 & Hu0 & _ & _ & _ & ->).
      unfold done_at. cbn [slots]. replace upload with u0 by congruence.
      apply nth_error_set_nth_eq. apply nth_error_Some. congruence.
    + rewrite step_idle by congruence. unfold done_at. rewrite H.
      now rewrite (spawned_done service i upload r Hsp).
  - rewrite step_idle; [assumption|]. unfold done_at in H. congruence.
Qed.

Lemma step_untouched (st : loop) (i j : nat) :
  i <> j -> nth_error (slots (step service st i)) j = nth_error (slots st) j.
Proof.
  intros Hne. unfold step.
  destruct (nth_error (slots st) i) as [[u url|r]|]; try reflexivity.
  destruct (resume (service i) (Suspended u url)) as [tk t]. cbn [slots].
  now apply nth_error_set_nth_ne.
Qed.

Lemma run_aligned (sched : list nat) (st : loop) :
  aligned st -> aligned (run service sched st).
Proof.
  revert st. induction sched as [|i sched IH]; intros st H; [assumption|].
  apply IH. now apply step_aligned.
Qed.

Lemma run_sound (sched : list nat) (st : loop) :
  aligned st -> sound st -> sound (run service sched st).
Proof.
  revert st. induction sched as [|i sched IH]; intros st Ha Hs; [assumption|].
  apply IH; [now apply step_aligned | now apply step_sound].
Qed.

Lemma run_accounted (sched : list nat) (st : loop) :
  aligned st -> accounted st -> accounted (run service sched st).
Proof.
  revert st. induction sched as [|i sched IH]; intros st Ha Hs; [assumption|].
  apply IH; [now apply step_aligned | now apply step_accounted].
Qed.

Lemma run_done_aligned (sched : list nat) (st : loop) (i : nat)
    (upload : UploadFile) :
  aligned st -> nth_error files i = Some upload -> In i sched ->
  done_at service i upload (run service sched st).
Proof.
  revert st. induction sched as [|j sched IH]; intros st Ha Hu Hin;
    [contradiction|].
  cbn [run fold_left]. destruct Hin as [->|Hin].
  - apply (run_keeps_done service sched). now apply step_done_aligned.
  - apply IH; try assumption. now apply step_aligned.
Qed.

Lemma run_untouched (sched : list nat) (st : loop) (j : nat) :
  ~ In j sched ->
  nth_error (slots (run service sched st)) j = nth_error (slots st) j.
Proof.
  revert st. induction sched as [|i sched IH]; intros st Hn; [reflexivity|].
  cbn [run fold_left]. fold (run service sched (step service st i)).
  rewrite IH by (intros C; apply Hn; now right).
  apply step_untouched. intros ->. apply Hn. now left.
Qed.

Lemma analyze_accepted (sched : list nat) :
  1 <= List.length files <= 10 -> truthy api_key = true ->
  analyze api_key service files sched
  = (match gather (run service sched (start files fresh)) with
     | Some (Returned rs) => Some (Returned {| results := rs |})
     | Some (Raised e) => Some (Raised (Uncaught e))
     | None => None
     end, trace (run service sched (start files fresh))).
Proof.
  intros [Hlo Hhi] Hkey. unfold analyze.
  destruct files as [|u0 us] eqn:Efiles; [cbn in Hlo; lia|].
  replace (10 <? List.length (u0 :: us))%nat with false
    by (symmetry; apply Nat.ltb_ge; lia).
  now rewrite Hkey.
Qed.

Lemma sound_fresh : sound fresh.
Proof. constructor; cbn; [constructor | discriminate]. Qed.

(** X10. What a batch that passed the checks costs: every upload is read
    exactly once, in the order of submission; requests are only sent for
    uploads that hold data, each for the data URL of such an upload, never
    more of them than there are such uploads, and exactly that many once
    every worker thread has finished. An empty upload never costs a
    request. *)
Theorem analyze_events (sched : list nat) :
  1 <= List.length files <= 10 -> truthy api_key = true ->
  let t := snd (analyze api_key service files sched) in
  reads_of t = files /\
  List.length (calls_of t) <= List.length (filter has_data files) /\
  Forall (fun req => exists upload,
              In upload files /\ has_data upload = true /\
              req = request_for (data_url_of upload))
         (calls_of t) /\
  ((forall i, i < List.length files -> In i sched) ->
   List.length (calls_of t) = List.length (filter has_data files)).
Proof.
  intros Hlen Hkey. cbv zeta. rewrite (analyze_accepted sched Hlen Hkey).
  cbn [snd].
  set (st := run service sched (start files fresh)).
  assert (Ha : aligned st) by apply run_aligned, start_aligned.
  assert (Hacc : accounted st)
    by (apply run_accounted; [apply start_aligned | apply start_accounted]).
  destruct Hacc as [Hr Hc Hk]. repeat split; try assumption.
  - lia.
  - intros Hfair. rewrite <- Hc. rewrite parked_none; [lia|].
    intros i tk Hi.
    assert (Hlt : i < List.length files).
    { rewrite <- (aligned_length st Ha). apply nth_error_Some. congruence. }
    destruct (nth_error files i) as [u|] eqn:Eu;
      [|apply nth_error_None in Eu; lia].
    assert (Hd : done_at service i u st).
    { apply run_done_aligned; [apply start_aligned | assumption |].
      now apply Hfair. }
    unfold done_at in Hd. rewrite Hd in Hi. now injection Hi as <-.
Qed.

(** X11. One upload without a filename sinks the batch: once every worker
    thread has finished, [asyncio.gather] has propagated the
    [ValidationError] of a task and [analyze] raises it instead of
    returning a response, whatever the other uploads are. *)
Theorem analyze_raises_unnamed (sched : list nat) (upload : UploadFile) :
  1 <= List.length files <= 10 -> truthy api_key = true ->
  (forall i, i < List.length files -> In i sched) ->
  In upload files -> upload_filename upload = None ->
  exists msg,
    fst (analyze api_key service files sched)
    = Some (Raised (Uncaught (Exn ValidationError msg))).
Proof.
  intros Hlen Hkey Hfair Hin Hnone.
  rewrite (analyze_accepted sched Hlen Hkey). cbn [fst].
  set (st := run service sched (start files fresh)).
  assert (Hs : sound st).
  { apply run_sound; [apply start_aligned|]. apply sound_start, sound_fresh. }
  destruct (In_nth_error _ _ Hin) as [i Hi].
  assert (Hd : done_at service i upload st).
  { apply run_done_aligned; [apply start_aligned | assumption |].
    apply Hfair, nth_error_Some. congruence. }
  destruct (analyze_file_raises (service i) upload Hnone) as [msg Hmsg].
  unfold done_at, final in Hd. rewrite Hmsg in Hd.
  destruct (failed st) as [e|] eqn:Ef.
  - destruct (sound_some st Hs e Ef) as [msg' ->].
    exists msg'. unfold gather. now rewrite Ef.
  - exfalso. pose proof (sound_none st Hs Ef) as HF.
    apply nth_error_In in Hd.
    exact (proj1 (Forall_forall _ _) HF _ Hd _ eq_refl).
Qed.

(** X12. [analyze] never returns a partial response: as long as the worker
    thread of one upload that holds data has not finished, and no task has
    failed, the [await] of [asyncio.gather] is still pending. *)
Theorem analyze_waits_for_all (sched : list nat) (i : nat)
    (upload : UploadFile) :
  1 <= List.length files <= 10 -> truthy api_key = true ->
  (forall u, In u files -> upload_filename u <> None) ->
  nth_error files i = Some upload -> has_data upload = true ->
  ~ In i sched ->
  fst (analyze api_key service files sched) = None.
Proof.
  intros Hlen Hkey Hnamed Hi Hd Hout.
  rewrite (analyze_accepted sched Hlen Hkey). cbn [fst].
  set (st := run service sched (start files fresh)).
  assert (Hc : consistent service files st)
    by (apply (run_consistent service files Hnamed),
              (start_consistent service files Hnamed)).
  assert (Hslot : nth_error (slots st) i
                  = Some (Suspended upload (data_url_of upload))).
  { unfold st. rewrite run_untouched by assumption.
    rewrite slots_start. cbn [slots fresh app].
    rewrite nth_error_map, Hi. cbn [option_map].
    now rewrite spawn_shape, Hd. }
  unfold gather. rewrite (none_failed _ _ _ Hc).
  now rewrite (collect_parked (slots st) i _ Hslot eq_refl).
Qed.

End BatchMore.

End Collaborators.

End App.

(* ===================================================================== *)
(** ** A concrete environment                                            *)
(* ===================================================================== *)

Module Demo.

Import App.

Local Open Scope string_scope.
Local Open Scope list_scope.

(** A small [mimetypes] table. *)
Definition ends_with (suffix name : string) : bool :=
  match after_last suffix name with
  | Some EmptyString => true
  | _ => false
  end.

Definition guess_type (name : string) : option string :=
  if ends_with ".png" name then Some "image/png"
  else if ends_with ".jpg" name then Some "image/jpeg"
  else None.

(** The double quote, to spell JSON texts. *)
Definition q : string := String (ascii_of_nat 34) EmptyString.

Definition key (k : string) : string := (q ++ k ++ q ++ ":")%string.
Definition text (s : string) : string := (q ++ s ++ q)%string.

(** The answer of the round-trip example, as the service sends it. *)
Definition checkout_text : string :=
  ("{" ++ key "type" ++ text "checkout page" ++ ","
   ++ key "extracted" ++ "[{" ++ key "brand" ++ text "Nike" ++ ","
   ++ key "product_name" ++ text "Running Shorts" ++ ","
   ++ key "price" ++ text "$24.99" ++ "}]}")%string.

(** An answer whose only item has no [brand] key. *)
Definition no_brand_text : string :=
  ("{" ++ key "type" ++ text "product page" ++ ","
   ++ key "extracted" ++ "[{" ++ key "product_name" ++ text "Wool Scarf"
   ++ "," ++ key "price" ++ "null}]}")%string.

Definition no_brand_response : json :=
  JDict [("type", JStr "product page");
         ("extracted",
          JList [JDict [("product_name", JStr "Wool Scarf");
                        ("price", JNull)]])].

(** An answer with neither [type] nor [extracted]. *)
Definition bare_text : string := "{}".

(** [json.loads] on the texts above; anything else is taken not to be
    JSON. *)
Definition json_loads (s : string) : result exn json :=
  if String.eqb s checkout_text then Returned checkout_response
  else if String.eqb s no_brand_text then Returned no_brand_response
  else if String.eqb s bare_text then Returned (JDict [])
  else Raised (Exn JSONDecodeError "Expecting value: line 1 column 1 (char 0)").

Definition message_of (f : fault) : string :=
  match f with
  | NoAttribute _ name => "object has no attribute " ++ name
  | NotIterable _ => "object is not iterable"
  | NotAMapping _ => "argument after ** must be a mapping"
  | Invalid cls _ => "validation error for " ++ cls
  | NotAscii => "'ascii' codec can't decode byte"
  end%string.

(** Services. *)
Definition answers (txt : string) (req : request) : result exn string :=
  Returned txt.

Definition unreachable (req : request) : result exn string :=
  Raised (Exn ServiceError "Connection error.").

(** The service met by the tasks of a batch: the first gets the checkout
    answer, the second no connection, the others text that is not JSON. *)
Definition service (i : nat) : request -> result exn string :=
  match i with
  | 0 => answers checkout_text
  | 1 => unreachable
  | _ => answers "Sorry, I cannot help with that."
  end.

(** Uploads. *)
Definition png_bytes : list byte := [x89; x50; x4e; x47; x0d; x0a; x1a; x0a].

Definition cart : UploadFile :=
  {| upload_filename := Some "cart.png"; upload_file := png_bytes |}.

Definition wishlist : UploadFile :=
  {| upload_filename := Some "wishlist.jpg";
     upload_file := list_byte_of_string "not really a picture" |}.

Definition blank : UploadFile :=
  {| upload_filename := Some "blank.png"; upload_file := [] |}.

Definition unnamed : UploadFile :=
  {| upload_filename := None; upload_file := png_bytes |}.

End Demo.

(* ===================================================================== *)
(** ** The theorems at work                                              *)
(* ===================================================================== *)

Import App Demo.

Local Open Scope string_scope.
Local Open Scope list_scope.

(** Three uploads; the worker thread of the second finishes first. *)
Lemma analyze_preserves_order_witness :
  exists rs,
    fst (analyze guess_type json_loads PydanticV2 message_of (Some "sk-test")
           service [cart; wishlist; blank] [1; 2; 0])
    = Some (Returned {| results := rs |}) /\
    List.length rs = List.length [cart; wishlist; blank] /\
    forall i upload, nth_error [cart; wishlist; blank] i = Some upload ->
      exists r, nth_error rs i = Some r /\
                outcome (_analyze_file guess_type json_loads PydanticV2
                           message_of (service i) upload) = Returned r /\
                upload_filename upload = Some (filename r).
Proof.
  apply (analyze_preserves_order guess_type json_loads PydanticV2 message_of
           (Some "sk-test") service [cart; wishlist; blank] [1; 2; 0]).
  - cbn. lia.
  - reflexivity.
  - intros upload [<-|[<-|[<-|[]]]]; discriminate.
  - intros [|[|[|i]]] Hi; cbn in *; auto; lia.
Defined.

(** The same batch in pydantic 1, with the threads finishing in order. *)
Example analyze_in_order :
  fst (analyze guess_type json_loads PydanticV1 message_of (Some "sk-test")
         service [cart; wishlist; blank] [0; 1])
  = Some (Returned {| results :=
      [ {| filename := "cart.png"; type := "checkout page";
           products := [ {| brand := Some "Nike";
                            product_name := "Running Shorts";
                            price := Some "$24.99" |} ];
           error := None |};
        {| filename := "wishlist.jpg"; type := "error"; products := [];
           error := Some "Connection error." |};
        {| filename := "blank.png"; type := "error"; products := [];
           error := Some "empty file" |} ] |}).
Proof. reflexivity. Qed.

(** An upload without a filename: the orchestrator raises. *)
Lemma orchestrator_raises_unnamed_witness :
  upload_filename unnamed = None /\
  ((forall raw r, build_result PydanticV2 message_of unnamed raw <> Returned r) /\
   (forall exc, exists msg,
       error_result PydanticV2 message_of unnamed exc
       = Raised (Exn ValidationError msg)) /\
   exists msg,
     outcome (_analyze_file guess_type json_loads PydanticV2 message_of
                (service 0) unnamed)
     = Raised (Exn ValidationError msg)).
Proof.
  split; [reflexivity|].
  apply (orchestrator_raises_unnamed guess_type json_loads PydanticV2
           message_of (service 0) unnamed).
  reflexivity.
Defined.

(** C1, where the code departs from it. A batch of two uploads passes the
    three checks of [analyze], with a configured credential and both worker
    threads finishing; the second upload has no filename, its task ends
    with pydantic's [ValidationError], [asyncio.gather] propagates it and
    [analyze] raises instead of returning two results in order. *)
Example analyze_unnamed_escapes :
  fst (analyze guess_type json_loads PydanticV2 message_of (Some "sk-test")
         service [cart; unnamed] [0; 1])
  = Some (Raised (Uncaught (Exn ValidationError
                              "validation error for ImageResult"))).
Proof. reflexivity. Qed.

(** No file; eleven files and no credential; one file and an empty
    credential. *)
Lemma analyze_rejects_witness :
  analyze guess_type json_loads PydanticV2 message_of None service [] [0]
  = (Some (Raised (HTTPException 400 "At least one image is required")), [])
  /\
  analyze guess_type json_loads PydanticV2 message_of None service
    (repeat cart 11) [0]
  = (Some (Raised (HTTPException 400 "Maximum of 10 images allowed")), [])
  /\
  analyze guess_type json_loads PydanticV2 message_of (Some "") service
    [cart] [0]
  = (Some (Raised (HTTPException 500 "OPENAI_API_KEY not configured")), []).
Proof.
  split; [|split].
  - apply (analyze_rejects guess_type json_loads PydanticV2 message_of None
             service [] [0]).
    reflexivity.
  - apply (analyze_rejects guess_type json_loads PydanticV2 message_of None
             service (repeat cart 11) [0]).
    cbn. lia.
  - apply (analyze_rejects guess_type json_loads PydanticV2 message_of
             (Some "") service [cart] [0]).
    + cbn. lia.
    + now right.
Defined.

(** The error result of an empty upload. *)
Lemma result_exclusive_witness :
  let r := {| filename := "blank.png"; type := "error"; products := [];
              error := Some "empty file" |} in
  outcome (_analyze_file guess_type json_loads PydanticV2 message_of
             (service 0) blank) = Returned r /\
  ((success_shape guess_type json_loads PydanticV2 message_of (service 0)
      blank r /\ ~ error_shape r \/
    error_shape r /\
    ~ success_shape guess_type json_loads PydanticV2 message_of (service 0)
        blank r) /\
   (error r <> None -> type r = "error")).
Proof.
  cbv zeta. split; [reflexivity|].
  apply (result_exclusive guess_type json_loads PydanticV2 message_of
           (service 0) blank).
  reflexivity.
Defined.

(** An empty buffer, and the eight bytes of a PNG signature. *)
Lemma encode_image_spec_witness :
  outcome (_encode_image guess_type message_of blank)
  = Raised (Exn ValueError "empty file") /\
  exists mime payload : string,
    outcome (_encode_image guess_type message_of cart)
    = Returned ("data:" ++ mime ++ ";base64," ++ payload)%string /\
    list_byte_of_string payload = Base64.b64encode (upload_file cart) /\
    forallb Base64.is_b64_char (list_byte_of_string payload) = true /\
    String.length payload = 4 * ((List.length (upload_file cart) + 2) / 3) /\
    (forall name m, upload_filename cart = Some name ->
                    guess_type name = Some m -> m <> "" -> mime = m) /\
    (forall name, upload_filename cart = Some name ->
                  guess_type name = None -> mime = "image/png") /\
    (upload_filename cart = None -> guess_type "" = None ->
     mime = "image/png").
Proof.
  split.
  - apply (proj1 (encode_image_spec guess_type message_of blank)).
    reflexivity.
  - apply (proj2 (encode_image_spec guess_type message_of cart)).
    discriminate.
Defined.

Example encode_image_cart :
  outcome (_encode_image guess_type message_of cart)
  = Returned "data:image/png;base64,iVBORw0KGgo=".
Proof. reflexivity. Qed.

Example encode_image_unnamed :
  outcome (_encode_image guess_type message_of unnamed)
  = Returned "data:image/png;base64,iVBORw0KGgo=".
Proof. reflexivity. Qed.

Lemma encode_image_roundtrip_witness :
  upload_file wishlist <> [] /\
  exists url payload : string,
    outcome (_encode_image guess_type message_of wishlist) = Returned url /\
    after_last "base64," url = Some payload /\
    Base64.b64decode (list_byte_of_string payload)
    = Some (upload_file wishlist) /\
    (occurs "," (mime_type_of guess_type wishlist) = false ->
     after_first "base64," url = Some payload).
Proof.
  split; [discriminate|].
  apply (encode_image_roundtrip guess_type message_of wishlist).
  discriminate.
Defined.

Lemma filename_preserved_witness :
  (forall r, outcome (_analyze_file guess_type json_loads PydanticV2
                        message_of unreachable wishlist) = Returned r ->
             upload_filename wishlist = Some (filename r)) /\
  exists r, outcome (_analyze_file guess_type json_loads PydanticV2
                       message_of unreachable wishlist) = Returned r /\
            filename r = "wishlist.jpg".
Proof.
  pose proof (filename_preserved guess_type json_loads PydanticV2 message_of
                unreachable wishlist) as (_ & _ & H3 & H4).
  split; [exact H3|]. apply H4. reflexivity.
Defined.

Lemma checkout_roundtrip_witness :
  outcome (_call_model json_loads (answers checkout_text)
             (data_url_of guess_type cart)) = Returned checkout_response /\
  outcome (_analyze_file guess_type json_loads PydanticV2 message_of
             (answers checkout_text) cart)
  = Returned {| filename := "cart.png";
                type := "checkout page";
                products := [ {| brand := Some "Nike";
                                 product_name := "Running Shorts";
                                 price := Some "$24.99" |} ];
                error := None |}.
Proof.
  split; [reflexivity|].
  apply (checkout_roundtrip guess_type json_loads PydanticV2 message_of
           (answers checkout_text) cart "cart.png").
  - reflexivity.
  - discriminate.
  - reflexivity.
Defined.

(** The answer [{}]. *)
Lemma missing_keys_default_witness :
  outcome (_call_model json_loads (answers bare_text)
             (data_url_of guess_type cart)) = Returned (JDict []) /\
  outcome (_analyze_file guess_type json_loads PydanticV2 message_of
             (answers bare_text) cart)
  = Returned {| filename := "cart.png"; type := "unknown"; products := [];
                error := None |}.
Proof.
  split; [reflexivity|].
  apply (missing_keys_default guess_type json_loads PydanticV2 message_of
           (answers bare_text) cart "cart.png" []).
  - reflexivity.
  - discriminate.
  - reflexivity.
  - reflexivity.
  - reflexivity.
Defined.

(** C6 as the specification states it does not hold: with pydantic 2, an
    item without the [brand] key makes the result of the image an error
    result; no product with a null brand comes out. *)
Lemma missing_brand_rejected :
  outcome (_call_model json_loads (answers no_brand_text)
             (data_url_of guess_type cart)) = Returned no_brand_response /\
  outcome (_analyze_file guess_type json_loads PydanticV2 message_of
             (answers no_brand_text) cart)
  = Returned {| filename := "cart.png"; type := "error"; products := [];
                error := Some "validation error for ProductOut" |} /\
  ~ (exists r p,
        outcome (_analyze_file guess_type json_loads PydanticV2 message_of
                   (answers no_brand_text) cart) = Returned r /\
        In p (products r) /\ brand p = None /\ type r <> "error").
Proof.
  split; [reflexivity|]. split; [reflexivity|].
  intros (r & p & Hr & Hin & _). vm_compute in Hr. injection Hr as <-.
  exact Hin.
Qed.

(** The same answer under pydantic 1. *)
Lemma brand_null_or_missing_witness :
  outcome (_call_model json_loads (answers no_brand_text)
             (data_url_of guess_type cart)) = Returned no_brand_response /\
  outcome (_analyze_file guess_type json_loads PydanticV1 message_of
             (answers no_brand_text) cart)
  = Returned {| filename := "cart.png"; type := "product page";
                products := [] ++ {| brand := None;
                                     product_name := "Wool Scarf";
                                     price := None |} :: [];
                error := None |}.
Proof.
  split; [reflexivity|].
  apply (proj1 (brand_null_or_missing guess_type json_loads PydanticV1
                  message_of (answers no_brand_text) cart "cart.png"
                  "product page" [] []
                  [("product_name", JStr "Wool Scarf"); ("price", JNull)]
                  [] [] "Wool Scarf" None
                  eq_refl ltac:(discriminate) eq_refl eq_refl eq_refl
                  eq_refl eq_refl)).
  right. split; reflexivity.
Defined.

(* ===================================================================== *)
(** ** More cases                                                        *)
(* ===================================================================== *)

(** A [json.loads] that reads every text as the value [raw]. *)
Definition parses_to (raw : json) (s : string) : result exn json :=
  Returned raw.

(** Answers a careless service could give. *)
Definition null_type_response : json :=
  JDict [("type", JNull); ("extracted", JList [])].

Definition text_extracted_response : json :=
  JDict [("type", JStr "search results"); ("extracted", JStr "")].

Definition nameless_item : list (string * json) :=
  [("brand", JStr "Acme"); ("price", JStr "$5.00")].

Definition nameless_response : json :=
  JDict [("type", JStr "product page");
         ("extracted", JList [JDict nameless_item])].

(** An empty upload, and one that reaches the service. *)
Lemma analyze_file_events_witness :
  emitted (_analyze_file guess_type json_loads PydanticV2 message_of
             (service 0) blank) = [EvRead blank] /\
  emitted (_analyze_file guess_type json_loads PydanticV2 message_of
             (service 1) wishlist)
  = [EvRead wishlist; EvCall (request_for (data_url_of guess_type wishlist))].
Proof.
  split.
  - apply (proj1 (analyze_file_events guess_type json_loads PydanticV2
                    message_of (service 0) blank)).
    reflexivity.
  - apply (proj2 (analyze_file_events guess_type json_loads PydanticV2
                    message_of (service 1) wishlist)).
    discriminate.
Defined.

(** No connection; text that is not JSON. *)
Lemma failures_become_results_witness :
  outcome (_analyze_file guess_type json_loads PydanticV2 message_of
             unreachable wishlist)
  = Returned (error_image "wishlist.jpg" "Connection error.") /\
  outcome (_analyze_file guess_type json_loads PydanticV2 message_of
             (service 2) wishlist)
  = Returned (error_image "wishlist.jpg"
                "Expecting value: line 1 column 1 (char 0)").
Proof.
  pose proof (failures_become_results guess_type json_loads PydanticV2
                message_of unreachable wishlist "wishlist.jpg" eq_refl)
    as [_ H1].
  pose proof (failures_become_results guess_type json_loads PydanticV2
                message_of (service 2) wishlist "wishlist.jpg" eq_refl)
    as [_ H2].
  split.
  - apply (proj1 (H1 ltac:(discriminate))
             (Exn ServiceError "Connection error.")).
    reflexivity.
  - apply (proj1 (proj2 (H2 ltac:(discriminate)))
             "Sorry, I cannot help with that."
             (Exn JSONDecodeError "Expecting value: line 1 column 1 (char 0)")).
    + reflexivity.
    + reflexivity.
Defined.

(** The answer [[]]. *)
Lemma non_object_answer_witness :
  outcome (_call_model (parses_to (JList [])) (answers "[]")
             (data_url_of guess_type cart)) = Returned (JList []) /\
  outcome (_analyze_file guess_type (parses_to (JList [])) PydanticV2
             message_of (answers "[]") cart)
  = Returned (error_image "cart.png"
                (message_of (NoAttribute (JList []) "get"))).
Proof.
  split; [reflexivity|].
  apply (non_object_answer guess_type (parses_to (JList [])) PydanticV2
           message_of (answers "[]") cart "cart.png" (JList [])).
  - reflexivity.
  - discriminate.
  - reflexivity.
  - reflexivity.
Defined.

Lemma null_type_not_defaulted_witness :
  dict_get "type" [("type", JNull); ("extracted", JList [])] = Some JNull /\
  exists msg,
    outcome (_analyze_file guess_type (parses_to null_type_response)
               PydanticV1 message_of (answers "{}") cart)
    = Returned (error_image "cart.png" msg).
Proof.
  split; [reflexivity|].
  apply (null_type_not_defaulted guess_type (parses_to null_type_response)
           PydanticV1 message_of (answers "{}") cart "cart.png"
           [("type", JNull); ("extracted", JList [])] JNull).
  - reflexivity.
  - discriminate.
  - reflexivity.
  - reflexivity.
  - reflexivity.
Defined.

(** [extracted] is the empty string. *)
Lemma extracted_not_a_list_witness :
  outcome (_call_model (parses_to text_extracted_response) (answers "{}")
             (data_url_of guess_type cart))
  = Returned text_extracted_response /\
  outcome (_analyze_file guess_type (parses_to text_extracted_response)
             PydanticV2 message_of (answers "{}") cart)
  = Returned {| filename := "cart.png"; type := "search results";
                products := []; error := None |}.
Proof.
  split; [reflexivity|].
  apply (proj1 (extracted_not_a_list guess_type
                  (parses_to text_extracted_response) PydanticV2 message_of
                  (answers "{}") cart "cart.png"
                  [("type", JStr "search results"); ("extracted", JStr "")]
                  (JStr "")
                  eq_refl ltac:(discriminate) eq_refl eq_refl)).
  - now left.
  - reflexivity.
Defined.

(** The checkout answer: one item, one product. *)
Lemma products_all_or_nothing_witness :
  let r := {| filename := "cart.png"; type := "checkout page";
              products := [ {| brand := Some "Nike";
                               product_name := "Running Shorts";
                               price := Some "$24.99" |} ];
              error := None |} in
  let items := [JDict [("brand", JStr "Nike");
                       ("product_name", JStr "Running Shorts");
                       ("price", JStr "$24.99")]] in
  outcome (_analyze_file guess_type json_loads PydanticV2 message_of
             (answers checkout_text) cart) = Returned r /\
  List.length (products r) = List.length items /\
  forall i item, nth_error items i = Some item ->
    exists p, nth_error (products r) i = Some p /\
              product_of PydanticV2 message_of item = Returned p.
Proof.
  cbv zeta. split; [reflexivity|].
  apply (proj1 (products_all_or_nothing guess_type json_loads PydanticV2
                  message_of (answers checkout_text) cart "cart.png"
                  [("type", JStr "checkout page");
                   ("extracted",
                    JList [JDict [("brand", JStr "Nike");
                                  ("product_name", JStr "Running Shorts");
                                  ("price", JStr "$24.99")]])]
                  [JDict [("brand", JStr "Nike");
                          ("product_name", JStr "Running Shorts");
                          ("price", JStr "$24.99")]]
                  eq_refl ltac:(discriminate) eq_refl eq_refl)).
  - reflexivity.
  - reflexivity.
Defined.

(** An item with a brand and a price but no name. *)
Lemma product_name_required_witness :
  dict_get "product_name" nameless_item = None /\
  exists msg,
    outcome (_analyze_file guess_type (parses_to nameless_response)
               PydanticV1 message_of (answers "{}") cart)
    = Returned (error_image "cart.png" msg).
Proof.
  split; [reflexivity|].
  apply (product_name_required guess_type (parses_to nameless_response)
           PydanticV1 message_of (answers "{}") cart "cart.png"
           [("type", JStr "product page");
            ("extracted", JList [JDict nameless_item])]
           [JDict nameless_item] nameless_item).
  - reflexivity.
  - discriminate.
  - reflexivity.
  - reflexivity.
  - now left.
  - now left.
Defined.

(** The checkout answer conforms to the schema. *)
Lemma schema_conforming_accepted_witness :
  conforms (format_schema JSON_SCHEMA) checkout_response = true /\
  exists kvs t items ps,
    checkout_response = JDict kvs /\
    dict_get "type" kvs = Some (JStr t) /\
    dict_get "extracted" kvs = Some (JList items) /\
    outcome (_analyze_file guess_type json_loads PydanticV1 message_of
               (answers checkout_text) cart)
    = Returned {| filename := "cart.png"; type := t; products := ps;
                  error := None |} /\
    List.length ps = List.length items /\
    forall i item, nth_error items i = Some item ->
      exists p, nth_error ps i = Some p /\ mirrors item p.
Proof.
  split; [reflexivity|].
  apply (schema_conforming_accepted guess_type json_loads PydanticV1
           message_of (answers checkout_text) cart "cart.png"
           checkout_response).
  - reflexivity.
  - discriminate.
  - reflexivity.
  - reflexivity.
Defined.

(** The schema refuses the answers about which the models are lenient or
    depend on the version of pydantic. *)
Example schema_refuses :
  conforms (format_schema JSON_SCHEMA) no_brand_response = false /\
  conforms (format_schema JSON_SCHEMA) (JDict []) = false /\
  conforms (format_schema JSON_SCHEMA) text_extracted_response = false /\
  conforms (format_schema JSON_SCHEMA) null_type_response = false.
Proof. repeat split; reflexivity. Qed.

(** Same bytes under two names. *)
Lemma encode_image_injective_witness :
  outcome (_encode_image guess_type message_of cart)
  = Returned "data:image/png;base64,iVBORw0KGgo=" /\
  outcome (_encode_image guess_type message_of unnamed)
  = Returned "data:image/png;base64,iVBORw0KGgo=" /\
  upload_file cart = upload_file unnamed.
Proof.
  split; [reflexivity|]. split; [reflexivity|].
  apply (encode_image_injective guess_type message_of cart unnamed
           "data:image/png;base64,iVBORw0KGgo=");
    reflexivity.
Defined.

(** Three uploads, one of them empty: three reads, two requests. *)
Lemma analyze_events_witness :
  let t := snd (analyze guess_type json_loads PydanticV2 message_of
                  (Some "sk-test") service [cart; wishlist; blank]
                  [1; 2; 0]) in
  reads_of t = [cart; wishlist; blank] /\
  List.length (calls_of t)
  <= List.length (filter has_data [cart; wishlist; blank]) /\
  Forall (fun req => exists upload,
              In upload [cart; wishlist; blank] /\
              has_data upload = true /\
              req = request_for (data_url_of guess_type upload))
         (calls_of t) /\
  ((forall i, i < List.length [cart; wishlist; blank] -> In i [1; 2; 0]) ->
   List.length (calls_of t)
   = List.length (filter has_data [cart; wishlist; blank])).
Proof.
  apply (analyze_events guess_type json_loads PydanticV2 message_of
           (Some "sk-test") service [cart; wishlist; blank] [1; 2; 0]).
  - cbn. lia.
  - reflexivity.
Defined.

Example analyze_events_counts :
  List.length
    (calls_of (snd (analyze guess_type json_loads PydanticV2 message_of
                      (Some "sk-test") service [cart; wishlist; blank]
                      [1; 2; 0]))) = 2.
Proof. reflexivity. Qed.

Lemma analyze_raises_unnamed_witness :
  exists msg,
    fst (analyze guess_type json_loads PydanticV2 message_of (Some "sk-test")
           service [cart; unnamed] [1; 0])
    = Some (Raised (Uncaught (Exn ValidationError msg))).
Proof.
  apply (analyze_raises_unnamed guess_type json_loads PydanticV2 message_of
           (Some "sk-test") service [cart; unnamed] [1; 0] unnamed).
  - cbn. lia.
  - reflexivity.
  - intros [|[|i]] Hi; cbn in *; auto; lia.
  - right. now left.
  - reflexivity.
Defined.

(** The worker thread of the second upload never finishes. *)
Lemma analyze_waits_for_all_witness :
  ~ In 1 [0] /\
  fst (analyze guess_type json_loads PydanticV2 message_of (Some "sk-test")
         service [cart; wishlist] [0]) = None.
Proof.
  assert (Hout : ~ In 1 [0]) by (intros [H|[]]; discriminate).
  split; [exact Hout|].
  apply (analyze_waits_for_all guess_type json_loads PydanticV2 message_of
           (Some "sk-test") service [cart; wishlist] [0] 1 wishlist).
  - cbn. lia.
  - reflexivity.
  - intros u [<-|[<-|[]]]; discriminate.
  - reflexivity.
  - reflexivity.
  - exact Hout.
Defined.
